(** * EncDecTransfModelBPE: a shallow embedding of
      nemo/collections/asr/models/transformer_bpe_models.py

    The first part embeds the Python module: string primitives, the
    special-token regular expression, the length-to-mask helper, the
    constructor's vocabulary padding, [forward], the teacher-forcing shift
    of [compute_audio_loss] and [validation_step], the [transcribe] /
    [translate] entry points, the epoch-end metric aggregation, the
    configuration handling of the constructor and of the data-loader
    setup, and the video loader of
    nemo/collections/multimodal/data/videoneva/video_neva_dataset.py.
    The second part states and proves their properties.

    Conventions.
    - Python [str] is [string]; a character is one code point below 256.
    - Python [int] is [Z]; Python [float] results of integer arithmetic are
      idealised as exact rationals [Q], except in [setup_training_data],
      where a [float] is an IEEE 754 double with its rounding.
    - A call that may raise returns [result]; code that mutates [self]
      threads a [model_state] explicitly.
    - Collaborators that live outside this file (preprocessor, encoder,
      decoder, beam search, tokenizer, data loading, BLEU, edit distance)
      are the fields of the classes [Collaborators], [Scorers],
      [Factories] and [Externals]; every statement holds for all of
      them. *)

From Stdlib Require Import ZArith QArith Qround List String Ascii Bool Lia.
From Stdlib Require Import Permutation.
From Stdlib Require SpecFloat.
From Equations Require Import Equations.
Import ListNotations.
Close Scope Q_scope.
Open Scope string_scope.
Open Scope list_scope.

(** ** Exceptions and results *)

Inductive exception : Type :=
| ValueError
| NameError
| IndexError
| ZeroDivisionError
| RuntimeError
| TypeError
| AttributeError
| ExternalError (code : Z).

Inductive result (A : Type) : Type :=
| Ok (a : A)
| Raise (e : exception).
Arguments Ok {A} a.
Arguments Raise {A} e.

Definition bind {A B} (r : result A) (k : A -> result B) : result B :=
  match r with
  | Ok a => k a
  | Raise e => Raise e
  end.

Notation "'let?' x ':=' r 'in' k" := (bind r (fun x => k))
  (at level 10, x pattern, r at level 100, k at level 200).

(** ** Python string primitives used by the module *)

Module PyStr.

(** [str.isspace] on one code point below 256: TAB..CR, FS..US, SPACE,
    NEL (0x85) and NBSP (0xA0). *)
Definition isspace (c : ascii) : bool :=
  let n := nat_of_ascii c in
  (((9 <=? n) && (n <=? 13)) || ((28 <=? n) && (n <=? 32))
   || (n =? 133) || (n =? 160))%nat.

(** [s.lstrip()] *)
Fixpoint lstrip (s : string) : string :=
  match s with
  | EmptyString => EmptyString
  | String c r => if isspace c then lstrip r else s
  end.

(** [s.rstrip()]: a trailing whitespace character is dropped when everything
    after it has been dropped. *)
Fixpoint rstrip (s : string) : string :=
  match s with
  | EmptyString => EmptyString
  | String c r =>
      match rstrip r with
      | EmptyString => if isspace c then EmptyString else String c EmptyString
      | r' => String c r'
      end
  end.

(** [s.strip()] *)
Definition strip (s : string) : string := rstrip (lstrip s).

(** [s.split()] with no separator: maximal runs of non-whitespace.
    [cur] is the word being read, in reverse. *)
Fixpoint rev_string (acc s : string) : string :=
  match s with
  | EmptyString => acc
  | String c r => rev_string (String c acc) r
  end.

Definition flush (cur : string) : list string :=
  match cur with
  | EmptyString => []
  | _ => [rev_string EmptyString cur]
  end.

Fixpoint split_aux (cur s : string) : list string :=
  match s with
  | EmptyString => flush cur
  | String c r =>
      if isspace c then flush cur ++ split_aux EmptyString r
      else split_aux (String c cur) r
  end.

Definition split (s : string) : list string := split_aux EmptyString s.

(** [s != ''] *)
Definition nonempty (s : string) : bool :=
  match s with
  | EmptyString => false
  | String _ _ => true
  end.

End PyStr.

(** ** [_strip_special_tokens]: [re.sub(r'<[^>]+>', '', text)] *)

Module SpecialTokens.

Definition is_lt (c : ascii) : bool := Ascii.eqb c "<"%char.
Definition is_gt (c : ascii) : bool := Ascii.eqb c ">"%char.

(** The text that follows the first [>] of [s], if [s] has one. *)
Fixpoint after_gt (s : string) : option string :=
  match s with
  | EmptyString => None
  | String c r => if is_gt c then Some r else after_gt r
  end.

(** An attempt to match [<[^>]+>] at the head of [s]: the remainder of the
    text after the match.  The class [[^>]] takes every character but [>]
    (newlines too), the [+] wants at least one, and the first [>] after
    them closes the match. *)
Definition match_here (s : string) : option string :=
  match s with
  | String c (String d r) =>
      if is_lt c && negb (is_gt d) then after_gt r else None
  | _ => None
  end.

(** [re.sub] scans left to right; at each position it either removes the
    match found there and resumes after it, or copies one character. *)
Equations? _strip_special_tokens (text : string) : string
  by wf (length text) lt :=
  _strip_special_tokens EmptyString := EmptyString;
  _strip_special_tokens (String c r) with Logic.inspect (match_here (String c r)) => {
    | exist _ (Some rest) Heq := _strip_special_tokens rest;
    | exist _ None _ := String c (_strip_special_tokens r) }.
Proof.
  clear _strip_special_tokens.
  assert (Hgt : forall s u, after_gt s = Some u ->
                            (String.length u < String.length s)%nat).
  { induction s as [|a s IH]; intros u; simpl; [discriminate|].
    destruct (is_gt a).
    - intros [= <-]. lia.
    - intros H. specialize (IH _ H). lia. }
  destruct r as [|d r']; [discriminate|].
  destruct (is_lt c && negb (is_gt d)); [|discriminate].
  apply Hgt in Heq. simpl. lia.
Qed.

(** [re.search(r'<[^>]+>', s) is not None] *)
Fixpoint has_special_token (s : string) : bool :=
  match s with
  | EmptyString => false
  | String c r =>
      match match_here s with
      | Some _ => true
      | None => has_special_token r
      end
  end.

End SpecialTokens.

(** ** Tensors as nested lists *)

Module Torch.

(** [torch.arange(n)]: the integers [0 .. n-1]; a negative bound is refused. *)
Definition arange (n : Z) : result (list Z) :=
  if (n <? 0)%Z then Raise RuntimeError
  else Ok (map Z.of_nat (seq 0 (Z.to_nat n))).

(** [row.repeat(batch_size, 1)] on a one-dimensional tensor. *)
Definition repeat_rows {A} (batch_size : nat) (row : list A) : list (list A) :=
  List.repeat row batch_size.

(** [m < col[:, None]]: row [i] of [m] is compared with [col[i]]. *)
Definition lt_column (m : list (list Z)) (col : list Z) : list (list bool) :=
  map (fun rc => map (fun t => (t <? snd rc)%Z) (fst rc)) (combine m col).

(** [mask.sum()] along a row. *)
Definition count_true (row : list bool) : nat :=
  List.length (filter (fun b => b) row).

(** Normalisation of one slice bound against a dimension of size [n]:
    negative bounds count from the end, and everything is clamped. *)
Definition slice_bound (n : nat) (i : Z) : nat :=
  if (i <? 0)%Z then Z.to_nat (Z.max 0 (Z.of_nat n + i))
  else Nat.min n (Z.to_nat i).

(** [l[start:stop]] with optional bounds and unit step. *)
Definition slice {A} (start stop : option Z) (l : list A) : list A :=
  let n := List.length l in
  let a := match start with None => 0%nat | Some i => slice_bound n i end in
  let b := match stop with None => n | Some j => slice_bound n j end in
  firstn (b - a) (skipn a l).

(** [t[:, start:stop]] on a batch of rows. *)
Definition slice_cols {A} (start stop : option Z) (t : list (list A))
  : list (list A) :=
  map (slice start stop) t.

(** [t.shape[1]] of a batch of rows. *)
Definition shape1 {A} (t : list (list A)) : Z :=
  match t with
  | [] => 0%Z
  | row :: _ => Z.of_nat (List.length row)
  end.

End Torch.

(** ** [lens_to_mask] *)

Definition lens_to_mask (lens : list Z) (max_length : Z)
  : result (list (list bool)) :=
  let batch_size := List.length lens in
  let? steps := Torch.arange max_length in
  Ok (Torch.lt_column (Torch.repeat_rows batch_size steps) lens).

(** ** Vocabulary padding in [__init__] *)

(** [math.ceil] of the true quotient of two integers. *)
Definition ceil (q : Q) : Z := Qceiling q.

(** [vocab_size = 8 * ceil(self.tokenizer.vocab_size / 8)] *)
Definition vocab_size (tokenizer_vocab_size : Z) : Z :=
  (8 * ceil (inject_Z tokenizer_vocab_size / inject_Z 8)%Q)%Z.

(** [__init__] refuses a configuration without a tokenizer before it builds
    anything, and hands the padded size to decoder and head alike. *)
Record decoder_sizes : Type := {
  transf_decoder_vocab_size : Z;
  log_softmax_num_classes : Z
}.

Definition init_sizes (cfg_tokenizer_vocab_size : option Z) : result decoder_sizes :=
  match cfg_tokenizer_vocab_size with
  | None => Raise ValueError
  | Some v =>
      let vocab_size := vocab_size v in
      Ok {| transf_decoder_vocab_size := vocab_size;
            log_softmax_num_classes := vocab_size |}
  end.

(** ** The model object and its collaborators *)

Module Model.

(** The attributes of [self] that the methods below read or write. *)
Record model_state : Type := {
  training : bool;               (* self.training *)
  dither : Q;                    (* self.preprocessor.featurizer.dither *)
  pad_to : Z;                    (* self.preprocessor.featurizer.pad_to *)
  encoder_frozen : bool;         (* freeze state of self.encoder *)
  transf_decoder_frozen : bool;  (* freeze state of self.transf_decoder *)
  verbosity : Z                  (* logging.get_verbosity() *)
}.

Definition set_training (b : bool) (st : model_state) : model_state :=
  {| training := b; dither := dither st; pad_to := pad_to st;
     encoder_frozen := encoder_frozen st;
     transf_decoder_frozen := transf_decoder_frozen st;
     verbosity := verbosity st |}.

Definition set_dither (d : Q) (st : model_state) : model_state :=
  {| training := training st; dither := d; pad_to := pad_to st;
     encoder_frozen := encoder_frozen st;
     transf_decoder_frozen := transf_decoder_frozen st;
     verbosity := verbosity st |}.

Definition set_pad_to (p : Z) (st : model_state) : model_state :=
  {| training := training st; dither := dither st; pad_to := p;
     encoder_frozen := encoder_frozen st;
     transf_decoder_frozen := transf_decoder_frozen st;
     verbosity := verbosity st |}.

Definition set_encoder_frozen (b : bool) (st : model_state) : model_state :=
  {| training := training st; dither := dither st; pad_to := pad_to st;
     encoder_frozen := b;
     transf_decoder_frozen := transf_decoder_frozen st;
     verbosity := verbosity st |}.

Definition set_transf_decoder_frozen (b : bool) (st : model_state) : model_state :=
  {| training := training st; dither := dither st; pad_to := pad_to st;
     encoder_frozen := encoder_frozen st;
     transf_decoder_frozen := b;
     verbosity := verbosity st |}.

Definition set_verbosity (v : Z) (st : model_state) : model_state :=
  {| training := training st; dither := dither st; pad_to := pad_to st;
     encoder_frozen := encoder_frozen st;
     transf_decoder_frozen := transf_decoder_frozen st;
     verbosity := v |}.

(** [self.train(mode=mode)] and [self.eval()] *)
Definition train (mode : bool) : model_state -> model_state := set_training mode.
Definition eval : model_state -> model_state := train false.

(** Modelled from the spec: [freeze], a method of the module base class,
    which is not part of this file.  Section 4.6 has the orchestrator
    "freeze encoder and decoder parameters" and speaks of the "freeze
    state" of the two submodules: that state is one flag per submodule,
    and [freeze] sets it. *)
Definition freeze (frozen : bool) : bool := true.

(** Modelled from the spec: [unfreeze], the counterpart of [freeze] in the
    same base class; it clears the flag. *)
Definition unfreeze (frozen : bool) : bool := false.

(** [self.encoder.freeze()], [self.encoder.unfreeze()] and the same on
    [self.transf_decoder]. *)
Definition encoder_freeze (st : model_state) : model_state :=
  set_encoder_frozen (freeze (encoder_frozen st)) st.
Definition encoder_unfreeze (st : model_state) : model_state :=
  set_encoder_frozen (unfreeze (encoder_frozen st)) st.
Definition transf_decoder_freeze (st : model_state) : model_state :=
  set_transf_decoder_frozen (freeze (transf_decoder_frozen st)) st.
Definition transf_decoder_unfreeze (st : model_state) : model_state :=
  set_transf_decoder_frozen (unfreeze (transf_decoder_frozen st)) st.

(** [logging.WARNING] *)
Definition WARNING : Z := 30%Z.

(** The submodules [forward] may invoke, for the record of what ran. *)
Inductive module_call : Type :=
| Preprocessor
| SpecAugment
| Encoder
| Adapter
| TransfEncoder
| TransfDecoder
| LogSoftmax.

(** A computation together with the submodule calls it made, in order. *)
Definition traced (A : Type) : Type := (list module_call * result A)%type.

Definition tret {A} (a : A) : traced A := ([], Ok a).

Definition traise {A} (e : exception) : traced A := ([], Raise e).

Definition call {A} (m : module_call) (r : result A) : traced A := ([m], r).

Definition lift {A} (r : result A) : traced A := ([], r).

Definition tbind {A B} (x : traced A) (k : A -> traced B) : traced B :=
  match x with
  | (log, Ok a) => let (log', r) := k a in (log ++ log', r)
  | (log, Raise e) => (log, Raise e)
  end.

Notation "'do' x '<-' c ';' k" := (tbind c (fun x => k))
  (at level 10, x pattern, c at level 100, k at level 200).

Definition is_not_None {A} (o : option A) : bool :=
  match o with
  | Some _ => true
  | None => false
  end.

(** The manifest line written for one audio file. *)
Record manifest_entry : Type := {
  audio_filepath : string;
  duration : Z;
  text : string
}.

(** The manifest [transcribe] writes: one line per audio file, in order,
    with placeholder duration and text. *)
Definition manifest_of (paths2audio_files : list string)
  : list manifest_entry :=
  map (fun audio_file =>
         {| audio_filepath := audio_file;
            duration := 100000%Z;
            text := "nothing" |}) paths2audio_files.

(** What [transcribe] hands back: the literal [{}] or the list it built. *)
Inductive transcribe_return : Type :=
| EmptyDict
| Hypotheses (hypotheses : list string).

(** [torch.utils.data.BatchSampler] over a sequential sampler with
    [drop_last=False]: items are appended to the running batch, a full
    batch is yielded, and a last partial batch is yielded too. *)
Fixpoint batch_sampler {A} (batch_size : nat) (batch : list A) (sampler : list A)
  : list (list A) :=
  match sampler with
  | [] => match batch with
          | [] => []
          | _ => [batch]
          end
  | idx :: rest =>
      let batch := batch ++ [idx] in
      if (List.length batch =? batch_size)%nat
      then batch :: batch_sampler batch_size [] rest
      else batch_sampler batch_size batch rest
  end.

(** [DataLoader(dataset, batch_size=..., shuffle=False, drop_last=False)]:
    a batch size that is not positive is refused at construction. *)
Definition DataLoader {A} (dataset : list A) (batch_size : Z)
  : result (list (list A)) :=
  if (batch_size <=? 0)%Z then Raise ValueError
  else Ok (batch_sampler (Z.to_nat batch_size) [] dataset).

(** The mapping a validation or test step returns and stores. *)
Record output_dict (loss : Type) : Type := {
  step_loss : loss;
  translations : list string;
  ground_truths : list string
}.
Arguments step_loss {loss} _.
Arguments translations {loss} _.
Arguments ground_truths {loss} _.

(** *** Collaborators

    The submodules and helpers the model is built from.  They are defined
    elsewhere in the toolkit; the methods below only call them. *)

Class Collaborators : Type := {
  (** Float tensors and the loss value are opaque. *)
  tensor : Type;
  loss : Type;
  zero_loss : loss;
  (** The preprocessor reads the featurizer's [dither] and [pad_to]. *)
  preprocessor : Q -> Z -> tensor -> list Z -> result (tensor * list Z);
  (** [self.spec_augmentation], [None] when the configuration has none. *)
  spec_augmentation : option (tensor -> list Z -> result tensor);
  encoder : tensor -> list Z -> result (tensor * list Z);
  (** [encoded.permute(0, 2, 1)] and [enc_states.shape[1]] *)
  permute_0_2_1 : tensor -> tensor;
  shape_1 : tensor -> Z;
  (** [self.adapter]: a linear projection or the identity. *)
  adapter : tensor -> result tensor;
  use_transf_encoder : bool;
  transf_encoder : tensor -> list (list bool) -> result tensor;
  transf_decoder :
    list (list Z) -> list (list bool) -> tensor -> list (list bool) ->
    result tensor;
  log_softmax : tensor -> result tensor;
  (** [self.beam_search(encoder_hidden_states, encoder_input_mask,
      decoder_input_ids)]: one row of token ids per hypothesis. *)
  beam_search :
    tensor -> list (list bool) -> option (list (list Z)) ->
    result (list (list Z));
  ids_to_text : list Z -> string;
  transf_loss : tensor -> list (list Z) -> result loss;
  (** [audio_to_text_dataset.get_audio_to_text_bpe_dataset_from_config] on
      a manifest: the audio files of the data set it builds, or [None]. *)
  get_audio_to_text_bpe_dataset_from_config :
    list manifest_entry -> result (option (list string));
  (** Fetching one batch from the data loader: the collated audio of the
      listed files and their lengths. *)
  load_batch : list string -> result (tensor * list Z)
}.

(** *** Methods of [EncDecTransfModelBPE] *)

Section Methods.

Context {C : Collaborators}.

Definition forward_output : Type :=
  (option tensor * list Z * tensor * list (list bool))%type.

(** [forward].  [self.training] and the featurizer settings are read from
    the state; the result comes with the submodule calls made.  The
    [typecheck] decorator is not part of this file and is left out. *)
Definition forward (st : model_state)
    (input_signal : option tensor) (input_signal_length : option (list Z))
    (processed_signal : option tensor) (processed_signal_length : option (list Z))
    (transcript : option (list (list Z))) (transcript_length : option (list Z))
  : traced forward_output :=
  let has_input_signal :=
    is_not_None input_signal && is_not_None input_signal_length in
  let has_processed_signal :=
    is_not_None processed_signal && is_not_None processed_signal_length in
  if Bool.eqb (xorb has_input_signal has_processed_signal) false
  then traise ValueError
  else
    do (processed_signal, processed_signal_length) <-
      (if negb has_processed_signal
       then match input_signal, input_signal_length with
            | Some s, Some l =>
                call Preprocessor (preprocessor (dither st) (pad_to st) s l)
            | _, _ => traise TypeError
            end
       else match processed_signal, processed_signal_length with
            | Some s, Some l => tret (s, l)
            | _, _ => traise TypeError
            end);
    do processed_signal <-
      (match spec_augmentation with
       | Some augment =>
           if training st
           then call SpecAugment (augment processed_signal processed_signal_length)
           else tret processed_signal
       | None => tret processed_signal
       end);
    do (encoded, encoded_len) <-
      call Encoder (encoder processed_signal processed_signal_length);
    let enc_states := permute_0_2_1 encoded in
    do enc_states <- call Adapter (adapter enc_states);
    do enc_mask <- lift (lens_to_mask encoded_len (shape_1 enc_states));
    do enc_states <-
      (if use_transf_encoder
       then call TransfEncoder (transf_encoder enc_states enc_mask)
       else tret enc_states);
    do transf_log_probs <-
      (match transcript with
       | Some transcript =>
           do dec_mask <-
             (match transcript_length with
              | Some transcript_length =>
                  lift (lens_to_mask transcript_length (Torch.shape1 transcript))
              | None => traise AttributeError
              end);
           do dec_states <-
             call TransfDecoder
               (transf_decoder transcript dec_mask enc_states enc_mask);
           do transf_log_probs <- call LogSoftmax (log_softmax dec_states);
           tret (Some transf_log_probs)
       | None => tret None
       end);
    tret (transf_log_probs, encoded_len, enc_states, enc_mask).

(** [input_ids, labels = transcript[:, :-1], transcript[:, 1:]] *)
Definition input_ids_of (transcript : list (list Z)) : list (list Z) :=
  Torch.slice_cols None (Some (-1)%Z) transcript.

Definition labels_of (transcript : list (list Z)) : list (list Z) :=
  Torch.slice_cols (Some 1%Z) None transcript.

(** [self.transf_loss(log_probs=transf_log_probs, labels=labels)] *)
Definition apply_transf_loss (transf_log_probs : option tensor)
    (labels : list (list Z)) : result loss :=
  match transf_log_probs with
  | Some log_probs => transf_loss log_probs labels
  | None => Raise AttributeError
  end.

Definition batch : Type := (tensor * list Z * list (list Z) * list Z)%type.

(** [compute_audio_loss] *)
Definition compute_audio_loss (st : model_state) (batch : option batch)
  : result loss :=
  match batch with
  | None => Ok zero_loss
  | Some (signal, signal_len, transcript, transcript_len) =>
      let input_ids := input_ids_of transcript in
      let labels := labels_of transcript in
      let? (transf_log_probs, encoded_len, enc_states, enc_mask) :=
        snd (forward st (Some signal) (Some signal_len) None None
               (Some input_ids) (Some transcript_len)) in
      apply_transf_loss transf_log_probs labels
  end.

(** [validation_step]; [dali_processed] is
    [isinstance(batch, DALIOutputs) and batch.has_processed_signal].  The
    update of the running loss metric and the list the mapping is appended
    to are left out: the mapping is the value returned. *)
Definition validation_step (st : model_state) (dali_processed : bool)
    (batch : batch) : result (output_dict loss) :=
  let '(signal, signal_len, transcript, transcript_len) := batch in
  let input_ids := input_ids_of transcript in
  let labels := labels_of transcript in
  let? (transf_log_probs, encoded_len, enc_states, enc_mask) :=
    snd (if dali_processed
         then forward st None None (Some signal) (Some signal_len)
                (Some input_ids) (Some transcript_len)
         else forward st (Some signal) (Some signal_len) None None
                (Some input_ids) (Some transcript_len)) in
  let num_context_tokens_for_decoding := 5%Z in
  let? beam_hypotheses :=
    beam_search enc_states enc_mask
      (if (0 <? num_context_tokens_for_decoding)%Z
       then Some (Torch.slice_cols None (Some num_context_tokens_for_decoding)
                    input_ids)
       else None) in
  let? transf_loss := apply_transf_loss transf_log_probs labels in
  let ground_truths := map ids_to_text transcript in
  let translations := map ids_to_text beam_hypotheses in
  Ok {| step_loss := transf_loss;
        translations := map SpecialTokens._strip_special_tokens translations;
        ground_truths := map SpecialTokens._strip_special_tokens ground_truths |}.

(** [_setup_dataloader_from_config] on the configuration that
    [_setup_transcribe_dataloader] builds: it has no [use_lhotse] and no
    [drop_last] key, and [shuffle] is false.  Without a data set the
    result is [None]. *)
Definition _setup_dataloader_from_config (manifest : list manifest_entry)
    (batch_size : Z) : result (option (list (list string))) :=
  let? dataset := get_audio_to_text_bpe_dataset_from_config manifest in
  match dataset with
  | None => Ok None
  | Some dataset =>
      let? loader := DataLoader dataset batch_size in
      Ok (Some loader)
  end.

(** [_setup_transcribe_dataloader] *)
Definition _setup_transcribe_dataloader (paths2audio_files : list string)
    (batch_size : Z) (manifest : list manifest_entry)
  : result (option (list (list string))) :=
  let batch_size := Z.min batch_size (Z.of_nat (List.length paths2audio_files)) in
  _setup_dataloader_from_config manifest batch_size.

(** One pass of the [for test_batch in ...] body of [transcribe]. *)
Definition transcribe_batch (st : model_state) (return_hypotheses : bool)
    (test_batch : list string) : result (list string) :=
  let? (signal, signal_len) := load_batch test_batch in
  let? (log_probs, encoded_len, enc_states, enc_mask) :=
    snd (forward st (Some signal) (Some signal_len) None None None None) in
  let? beam_hypotheses := beam_search enc_states enc_mask None in
  let beam_hypotheses := map ids_to_text beam_hypotheses in
  if return_hypotheses
  then Raise NameError (* [logits] is not bound in this scope *)
  else Ok beam_hypotheses.

Fixpoint transcribe_loop (st : model_state) (return_hypotheses : bool)
    (temporary_datalayer : list (list string)) (hypotheses : list string)
  : result (list string) :=
  match temporary_datalayer with
  | [] => Ok hypotheses
  | test_batch :: rest =>
      let? beam_hypotheses := transcribe_batch st return_hypotheses test_batch in
      transcribe_loop st return_hypotheses rest (hypotheses ++ beam_hypotheses)
  end.

(** The first statements of the [try] block: augmentation off, evaluation
    mode, encoder and decoder frozen. *)
Definition enter_inference (st : model_state) : model_state :=
  let st := set_dither 0%Q st in
  let st := set_pad_to 0%Z st in
  let st := eval st in
  let st := encoder_freeze st in
  transf_decoder_freeze st.

(** [transcribe].  The manifest goes to the data loader as a value instead
    of through a file in a temporary directory. *)
Definition transcribe (paths2audio_files : option (list string))
    (batch_size : Z) (logprobs return_hypotheses : bool) (st : model_state)
  : model_state * result transcribe_return :=
  match paths2audio_files with
  | None | Some [] => (st, Ok EmptyDict)
  | Some paths2audio_files =>
      if return_hypotheses && logprobs then (st, Raise ValueError)
      else
        let mode := training st in
        let dither_value := dither st in
        let pad_to_value := pad_to st in
        (* try: *)
        let st := enter_inference st in
        let logging_level := verbosity st in
        let st := set_verbosity WARNING st in
        let manifest := manifest_of paths2audio_files in
        let outcome :=
          let? temporary_datalayer :=
            _setup_transcribe_dataloader paths2audio_files batch_size manifest in
          match temporary_datalayer with
          | None => Raise TypeError (* [None] is not iterable *)
          | Some temporary_datalayer =>
              transcribe_loop st return_hypotheses temporary_datalayer []
          end in
        (* finally: *)
        let st := train mode st in
        let st := set_dither dither_value st in
        let st := set_pad_to pad_to_value st in
        let st :=
          if mode
          then transf_decoder_unfreeze (encoder_unfreeze st)
          else st in
        let st := set_verbosity logging_level st in
        (* return hypotheses, or the pending exception *)
        (st, let? hypotheses := outcome in Ok (Hypotheses hypotheses))
  end.

(** [translate] passes its arguments on to [transcribe]. *)
Definition translate (paths2audio_files : option (list string))
    (batch_size : Z) (logprobs return_hypotheses : bool) (st : model_state)
  : model_state * result transcribe_return :=
  let hypotheses := transcribe paths2audio_files batch_size logprobs
                      return_hypotheses st in
  hypotheses.

End Methods.

End Model.

(** ** Epoch-end aggregation: [multi_validation_epoch_end] *)

Module EpochEnd.

(** The scoring libraries and the running loss metric. *)
Class Scorers (loss : Type) : Type := {
  (** [corpus_bleu(sys, refs, tokenize="13a").score] *)
  corpus_bleu : list string -> list (list string) -> Q;
  (** [editdistance.eval] on two word lists. *)
  editdistance_eval : list string -> list string -> Z;
  (** [self.val_loss.compute()] at the [k]-th pass of the loop. *)
  val_loss_compute : nat -> loss
}.

Section Aggregation.

Context {loss : Type} {scorers : Scorers loss}.

Definition output_dict : Type := Model.output_dict loss.

(** The [outputs] argument: a list of step mappings, or a list of such
    lists. *)
Inductive step_outputs : Type :=
| FlatOutputs (outputs : list output_dict)
| NestedOutputs (outputs : list (list output_dict)).

(** [not outputs] *)
Definition is_empty (outputs : step_outputs) : bool :=
  match outputs with
  | FlatOutputs [] | NestedOutputs [] => true
  | _ => false
  end.

(** [if isinstance(outputs[0], dict): outputs = [outputs]] *)
Definition wrap (outputs : step_outputs) : list (list output_dict) :=
  match outputs with
  | FlatOutputs outputs => [outputs]
  | NestedOutputs outputs => outputs
  end.

(** [(t, g) for (t, g) in zip(translations, ground_truths)
     if g.strip() != ''] over the flattened step outputs. *)
Definition kept_pairs (output : list output_dict) : list (string * string) :=
  let translations := List.concat (map Model.translations output) in
  let ground_truths := List.concat (map Model.ground_truths output) in
  filter (fun tg => PyStr.nonempty (PyStr.strip (snd tg)))
         (combine translations ground_truths).

(** [dist.all_gather_object(tr_and_gt, obj)]: slot [r] of the list receives
    the object that worker [r] passed to the same collective. *)
Definition all_gather_object {A} (tr_and_gt : list (option A))
    (passed_by : nat -> A) : list (option A) :=
  map (fun r => Some (passed_by r)) (seq 0 (List.length tr_and_gt)).

(** [l[0] = v] *)
Definition set_item_0 {A} (l : list A) (v : A) : result (list A) :=
  match l with
  | [] => Raise IndexError
  | _ :: rest => Ok (v :: rest)
  end.

(** Lines 589-596.  [output_of r] is the [output] that worker [r] holds in
    this pass. *)
Definition gather (world_size global_rank : nat)
    (output_of : nat -> list output_dict)
  : result (list (option (list (string * string)))) :=
  let tr_and_gt := List.repeat None world_size in
  if (1 <? world_size)%nat
  then Ok (all_gather_object tr_and_gt (fun r => kept_pairs (output_of r)))
  else set_item_0 tr_and_gt (Some (kept_pairs (output_of global_rank))).

(** [for rank in range(0, world_size): _translations += ...;
    _ground_truths += ...] *)
Fixpoint collect (tr_and_gt : list (option (list (string * string))))
    (ranks : list nat) (_translations _ground_truths : list string)
  : result (list string * list string) :=
  match ranks with
  | [] => Ok (_translations, _ground_truths)
  | rank :: rest =>
      match nth_error tr_and_gt rank with
      | None => Raise IndexError
      | Some None => Raise TypeError
      | Some (Some pairs) =>
          collect tr_and_gt rest
            (_translations ++ map fst pairs)
            (_ground_truths ++ map snd pairs)
      end
  end.

(** [for h, r in zip(_translations, _ground_truths): wer_words += ...;
    wer_scores += ...] *)
Fixpoint wer_loop (hr : list (string * string)) (wer_scores wer_words : Z)
  : Z * Z :=
  match hr with
  | [] => (wer_scores, wer_words)
  | (h, r) :: rest =>
      let wer_words := (wer_words + Z.of_nat (List.length (PyStr.split r)))%Z in
      let wer_scores :=
        (wer_scores + editdistance_eval (PyStr.split h) (PyStr.split r))%Z in
      wer_loop rest wer_scores wer_words
  end.

(** Float division by an integer. *)
Definition true_div (a : Q) (b : Z) : result Q :=
  if (b =? 0)%Z then Raise ZeroDivisionError
  else Ok (a / inject_Z b)%Q.

(** Lines 598-616. *)
Definition scores (world_size global_rank : nat)
    (tr_and_gt : list (option (list (string * string)))) : result (Q * Q) :=
  if (global_rank =? 0)%nat then
    let? (_translations, _ground_truths) :=
      collect tr_and_gt (seq 0 world_size) [] [] in
    let sacre_bleu := corpus_bleu _translations [_ground_truths] in
    let sb_score := (sacre_bleu * inject_Z (Z.of_nat world_size))%Q in
    let (wer_scores, wer_words) :=
      wer_loop (combine _translations _ground_truths) 0%Z 0%Z in
    let? wer_score :=
      true_div (1 * inject_Z wer_scores * inject_Z (Z.of_nat world_size))%Q
               wer_words in
    Ok (sb_score, wer_score)
  else
    let sb_score := 0%Q in
    let wer_score := 0%Q in
    Ok (sb_score, wer_score).

(** The three values handed to [self.log]. *)
Record logged : Type := {
  logged_loss : loss;
  logged_sacreBLEU : Q;
  logged_WER : Q
}.

(** One pass of [for output in outputs]. *)
Definition epoch_end_pass (world_size global_rank k : nat)
    (output_of : nat -> list output_dict) : result logged :=
  let eval_loss := val_loss_compute k in
  let? tr_and_gt := gather world_size global_rank output_of in
  let? (sb_score, wer_score) := scores world_size global_rank tr_and_gt in
  Ok {| logged_loss := eval_loss;
        logged_sacreBLEU := sb_score;
        logged_WER := wer_score |}.

Fixpoint epoch_end_loop (world_size global_rank k : nat)
    (peers : nat -> list (list output_dict))
    (outputs : list (list output_dict)) : result (list logged) :=
  match outputs with
  | [] => Ok []
  | output :: rest =>
      let output_of r :=
        if (r =? global_rank)%nat then output else nth k (peers r) [] in
      let? entry := epoch_end_pass world_size global_rank k output_of in
      let? entries := epoch_end_loop world_size global_rank (S k) peers rest in
      Ok (entry :: entries)
  end.

(** [multi_validation_epoch_end] as run by worker [global_rank];
    [outputs_of r] is the argument worker [r] was called with.  The result
    lists what was logged, pass by pass. *)
Definition multi_validation_epoch_end (world_size global_rank : nat)
    (outputs_of : nat -> step_outputs) : result (list logged) :=
  let outputs := outputs_of global_rank in
  if is_empty outputs then Ok []
  else
    epoch_end_loop world_size global_rank 0
      (fun r => wrap (outputs_of r)) (wrap outputs).

(** [multi_test_epoch_end] differs in the metric names only. *)
Definition multi_test_epoch_end := multi_validation_epoch_end.

End Aggregation.

End EpochEnd.

(** ** Configuration handling: [__init__] and the data-loader setup *)

Module Setup.

(** Values found in a configuration. *)
Inductive pyval : Type :=
| VNone
| VBool (b : bool)
| VInt (z : Z)
| VFloat (q : Q)
| VStr (s : string)
| VDict (d : list (string * pyval)).

(** A [dict] (or [DictConfig]) in insertion order. *)
Definition dict : Type := list (string * pyval).

(** Exceptions of this part: a missing key, a number out of the range
    of floats, or one of the others. *)
Inductive setup_exception : Type :=
| KeyError (key : string)
| OverflowError
| Py (e : exception).

Inductive outcome (A : Type) : Type :=
| Done (a : A)
| Fail (e : setup_exception).
Arguments Done {A} a.
Arguments Fail {A} e.

Definition and_then {A B} (r : outcome A) (k : A -> outcome B) : outcome B :=
  match r with
  | Done a => k a
  | Fail e => Fail e
  end.

Notation "'let!' x ':=' r 'in' k" := (and_then r (fun x => k))
  (at level 10, x pattern, r at level 100, k at level 200).

(** [d.get(key)] *)
Fixpoint get (d : dict) (key : string) : option pyval :=
  match d with
  | [] => None
  | (k, v) :: rest => if String.eqb k key then Some v else get rest key
  end.

(** [d.get(key, default)] *)
Definition get_default (d : dict) (key : string) (default : pyval) : pyval :=
  match get d key with
  | Some v => v
  | None => default
  end.

(** [key in d] *)
Definition contains (d : dict) (key : string) : bool :=
  match get d key with
  | Some _ => true
  | None => false
  end.

(** [d[key]] *)
Definition getitem (d : dict) (key : string) : outcome pyval :=
  match get d key with
  | Some v => Done v
  | None => Fail (KeyError key)
  end.

(** [d[key] = value]: an existing key keeps its place, a new one goes to
    the end. *)
Fixpoint setitem (d : dict) (key : string) (value : pyval) : dict :=
  match d with
  | [] => [(key, value)]
  | (k, v) :: rest =>
      if String.eqb k key then (k, value) :: rest
      else (k, v) :: setitem rest key value
  end.

(** [del d[key]], when the key is there. *)
Definition remove (d : dict) (key : string) : dict :=
  filter (fun kv => negb (String.eqb (fst kv) key)) d.

(** [d.pop(key, default)]: the value and the dict that is left. *)
Definition pop (d : dict) (key : string) (default : pyval) : pyval * dict :=
  (get_default d key default, remove d key).

(** Truth value of a configuration value. *)
Definition truthy (v : pyval) : bool :=
  match v with
  | VNone => false
  | VBool b => b
  | VInt z => negb (z =? 0)%Z
  | VFloat q => negb (Qeq_bool q 0)
  | VStr s => PyStr.nonempty s
  | VDict d => match d with [] => false | _ => true end
  end.

(** *** The decoder's arguments in [__init__] (lines 118-133) *)

(** The arguments of [get_transformer]. *)
Record transformer_arguments : Type := {
  library : pyval;
  model_name : pyval;
  pretrained : pyval;
  config_dict : dict;
  encoder : bool;
  pre_ln_final_layer_norm : pyval
}.

Definition decoder_arguments (transf_decoder_cfg_dict : dict)
    (tokenizer_vocab_size : Z) : transformer_arguments :=
  let vocab_size := vocab_size tokenizer_vocab_size in
  let d := setitem transf_decoder_cfg_dict "vocab_size" (VInt vocab_size) in
  let (library, d) := pop d "library" (VStr "nemo") in
  let (model_name, d) := pop d "model_name" VNone in
  let (pretrained, d) := pop d "pretrained" (VBool false) in
  {| library := library;
     model_name := model_name;
     pretrained := pretrained;
     config_dict := d;
     encoder := false;
     pre_ln_final_layer_norm :=
       get_default d "pre_ln_final_layer_norm" (VBool false) |}.

(** *** [_setup_dataloader_from_config] (lines 280-327) *)

(** A data set as far as the setup looks at it: its items, and whether it
    has a [collate_fn] of its own. *)
Record dataset : Type := {
  items : list string;
  has_collate_fn : bool
}.

(** Where the loader's [collate_fn] comes from. *)
Inductive collate_source : Type :=
| OfDataset
| OfFirstMember.

(** The arguments of [torch.utils.data.DataLoader]. *)
Record loader_arguments : Type := {
  dl_dataset : dataset;
  dl_batch_size : pyval;
  dl_collate_fn : collate_source;
  dl_drop_last : pyval;
  dl_shuffle : pyval;
  dl_num_workers : pyval;
  dl_pin_memory : pyval
}.

(** The arguments of [LhotseSpeechToTextBpeDataset]. *)
Record lhotse_arguments : Type := {
  noise_cuts : pyval;
  force_strip_pnc : pyval;
  token_sequence_format : pyval
}.

(** The factories the setup calls. *)
Class Factories : Type := {
  lhotse_loader : Type;
  get_lhotse_dataloader_from_config :
    dict -> lhotse_arguments -> outcome lhotse_loader;
  lhotse_dataset_len : lhotse_loader -> Z;
  get_audio_to_text_bpe_dataset_from_config : dict -> outcome (option dataset)
}.

Section DataSetup.

Context {F : Factories}.

(** What the setup returns. *)
Inductive data_loader : Type :=
| NoLoader
| Lhotse (loader : lhotse_loader)
| Torch (arguments : loader_arguments).

Definition _setup_dataloader_from_config (config : dict) : outcome data_loader :=
  if truthy (get_default config "use_lhotse" VNone) then
    let! noise_cuts :=
      match get config "lhotse" with
      | None => Done VNone
      | Some (VDict lhotse) => Done (get_default lhotse "noise_cuts" VNone)
      | Some _ => Fail (Py AttributeError)
      end in
    let! loader :=
      get_lhotse_dataloader_from_config config
        {| noise_cuts := noise_cuts;
           force_strip_pnc := get_default config "force_strip_pnc" (VBool false);
           token_sequence_format :=
             get_default config "token_sequence_format" VNone |} in
    Done (Lhotse loader)
  else
    let! dataset := get_audio_to_text_bpe_dataset_from_config config in
    match dataset with
    | None => Done NoLoader
    | Some dataset =>
        let! shuffle := getitem config "shuffle" in
        let shuffle :=
          if truthy (get_default config "is_tarred" (VBool false))
          then VBool false else shuffle in
        let collate_fn :=
          if has_collate_fn dataset then OfDataset else OfFirstMember in
        let! batch_size := getitem config "batch_size" in
        Done (Torch
                {| dl_dataset := dataset;
                   dl_batch_size := batch_size;
                   dl_collate_fn := collate_fn;
                   dl_drop_last := get_default config "drop_last" (VBool false);
                   dl_shuffle := shuffle;
                   dl_num_workers := get_default config "num_workers" (VInt 0);
                   dl_pin_memory :=
                     get_default config "pin_memory" (VBool false) |})
    end.

(** [setup_validation_data] and [setup_test_data]: the configuration as
    the call leaves it, and the loader that is stored. *)
Definition setup_validation_data (val_data_config : dict)
  : dict * outcome data_loader :=
  let val_data_config :=
    if negb (contains val_data_config "shuffle")
    then setitem val_data_config "shuffle" (VBool false)
    else val_data_config in
  (val_data_config, _setup_dataloader_from_config val_data_config).


(** Python's [float]: an IEEE 754 double (53 bits of precision), every
    operation rounded to nearest, ties to even. *)
Definition float : Type := SpecFloat.spec_float.

Definition prec : Z := 53.
Definition emax : Z := 1024.

(** An integer other than 0 as an unrounded number [m * 2^0]. *)
Definition unrounded (n : Z) : float :=
  SpecFloat.S754_finite (n <? 0)%Z (Z.to_pos (Z.abs n)) 0.

(** The conversion of an [int] operand to [float]: the nearest double,
    [OverflowError] when that is out of range. *)
Definition float_of_int (n : Z) : outcome float :=
  match SpecFloat.binary_normalize prec emax n 0 false with
  | SpecFloat.S754_infinity _ => Fail OverflowError
  | x => Done x
  end.

(** The double of a configuration value that is a [float]. *)
Definition float_of_Q (q : Q) : float :=
  match Qnum q with
  | Z0 => SpecFloat.S754_zero false
  | n => SpecFloat.SFdiv prec emax (unrounded n) (unrounded (Zpos (Qden q)))
  end.

Definition is_zero (x : float) : bool :=
  match x with
  | SpecFloat.S754_zero _ => true
  | _ => false
  end.

(** [a / b] on two [int]s: the quotient, rounded once. *)
Definition int_truediv (a b : Z) : outcome float :=
  if (b =? 0)%Z then Fail (Py ZeroDivisionError)
  else
    match a with
    | Z0 => Done (SpecFloat.S754_zero (b <? 0)%Z)
    | _ =>
        match SpecFloat.SFdiv prec emax (unrounded a) (unrounded b) with
        | SpecFloat.S754_infinity _ => Fail OverflowError
        | x => Done x
        end
    end.

(** [a / b] with a [float] [a] and a configuration value [b]. *)
Definition float_truediv (a : float) (b : pyval) : outcome float :=
  let! b :=
    match b with
    | VInt z => float_of_int z
    | VFloat q => Done (float_of_Q q)
    | VBool b => float_of_int (if b then 1 else 0)
    | _ => Fail (Py TypeError)
    end in
  if is_zero b then Fail (Py ZeroDivisionError)
  else Done (SpecFloat.SFdiv prec emax a b).

(** [a * b] with a [float] [a] and an [int] [b]. *)
Definition float_mul_int (a : float) (b : Z) : outcome float :=
  let! b := float_of_int b in
  Done (SpecFloat.SFmul prec emax a b).

(** [math.ceil(x)] *)
Definition math_ceil (x : float) : outcome Z :=
  match x with
  | SpecFloat.S754_zero _ => Done 0%Z
  | SpecFloat.S754_infinity _ => Fail OverflowError
  | SpecFloat.S754_nan => Fail (Py ValueError)
  | SpecFloat.S754_finite s m e =>
      let n := if s then Zneg m else Zpos m in
      Done (match e with
            | Zneg p => (- ((- n) / 2 ^ Zpos p))%Z
            | _ => (n * 2 ^ e)%Z
            end)
  end.

(** [int(x)] on a float: truncation towards zero. *)
Definition int_of_float (x : float) : outcome Z :=
  match x with
  | SpecFloat.S754_zero _ => Done 0%Z
  | SpecFloat.S754_infinity _ => Fail OverflowError
  | SpecFloat.S754_nan => Fail (Py ValueError)
  | SpecFloat.S754_finite s m e =>
      let n := if s then Zneg m else Zpos m in
      Done (match e with
            | Zneg p => Z.quot n (2 ^ Zpos p)
            | _ => (n * 2 ^ e)%Z
            end)
  end.

(** [self._trainer.limit_train_batches]: an [int] or a [float]. *)
Inductive limit : Type :=
| LimitInt (n : Z)
| LimitFloat (f : float).

(** [len(self._train_dl.dataset)] *)
Definition dataset_len (dl : data_loader) : outcome Z :=
  match dl with
  | NoLoader => Fail (Py AttributeError)
  | Lhotse loader => Done (lhotse_dataset_len loader)
  | Torch arguments =>
      Done (Z.of_nat (List.length (items (dl_dataset arguments))))
  end.

(** [setup_training_data] (lines 329-353): the loader stored and the
    trainer's [limit_train_batches] afterwards ([None] when there is no
    trainer). *)
Definition setup_training_data (world_size : Z) (trainer : option limit)
    (train_data_config : dict) : outcome (data_loader * option limit) :=
  let! _train_dl := _setup_dataloader_from_config train_data_config in
  if contains train_data_config "is_tarred"
     && truthy (get_default train_data_config "is_tarred" VNone)
  then
    match trainer with
    | Some (LimitFloat limit_train_batches) =>
        let! n := dataset_len _train_dl in
        let! per_worker := int_truediv n world_size in
        let! batch_size := getitem train_data_config "batch_size" in
        let! batches := float_truediv per_worker batch_size in
        let! batches := math_ceil batches in
        let! scaled := float_mul_int limit_train_batches batches in
        let! limit_train_batches := int_of_float scaled in
        Done (_train_dl, Some (LimitInt limit_train_batches))
    | Some (LimitInt n) => Done (_train_dl, Some (LimitInt n))
    | None => Done (_train_dl, None)
    end
  else Done (_train_dl, trainer).

(** The configuration [_setup_transcribe_dataloader] builds (lines
    660-669); [manifest_filepath] is the manifest's path in the temporary
    directory, [sample_rate] the preprocessor's and [cpu_count] the value
    of [os.cpu_count()]. *)
Definition transcribe_dl_config (paths2audio_files : list string)
    (batch_size : Z) (manifest_filepath : string) (sample_rate : Z)
    (cpu_count : Z) : dict :=
  let batch_size := Z.min batch_size (Z.of_nat (List.length paths2audio_files)) in
  [ ("manifest_filepath", VStr manifest_filepath);
    ("sample_rate", VInt sample_rate);
    ("batch_size", VInt batch_size);
    ("trim_silence", VBool false);
    ("shuffle", VBool false);
    ("num_workers", VInt (Z.min batch_size (cpu_count - 1)));
    ("pin_memory", VBool true) ].

Definition _setup_transcribe_dataloader (paths2audio_files : list string)
    (batch_size : Z) (manifest_filepath : string) (sample_rate : Z)
    (cpu_count : Z) : outcome data_loader :=
  _setup_dataloader_from_config
    (transcribe_dl_config paths2audio_files batch_size manifest_filepath
       sample_rate cpu_count).

End DataSetup.

End Setup.

(** ** The video loader

    [TarOrFolderVideoLoader] of
    nemo/collections/multimodal/data/videoneva/video_neva_dataset.py
    (lines 62-104): videos are read from a tar archive, through an index
    built once, or from a folder. *)

Module VideoLoader.

(** [s.endswith(suffix)] *)
Definition endswith (s suffix : string) : bool :=
  (String.length suffix <=? String.length s)%nat
  && String.eqb
       (substring (String.length s - String.length suffix)
          (String.length suffix) s)
       suffix.

(** A member of a tar archive ([tarfile.TarInfo]): its name and what
    [tar.extractfile(member).read()] gives, the bytes of a regular file;
    for a member of another kind [extractfile] returns [None].  The
    archive is taken not to change while the loader lives, so a member
    indexed at construction reads the same bytes later. *)
Record TarInfo : Type := {
  name : string;
  extractfile : option (list Byte.byte)
}.

(** What lies outside the class: the archive behind a path (the members
    [tarfile.open(path, 'r').getmembers()] lists, in archive order),
    [cv2.imdecode], which gives [None] for data it cannot decode, and
    [os.path.join]. *)
Class Externals : Type := {
  image : Type;
  tarfile_open : string -> result (list TarInfo);
  imdecode : list Byte.byte -> result (option image);
  path_join : string -> string -> string
}.

Section Loader.

Context {E : Externals}.

(** What [open_video] returns: a decoded image or a [cv2.VideoCapture] on
    a path. *)
Inductive video : Type :=
| Image (decoded : image)
| VideoCapture (path : string).

(** [self.tar_index]: a [dict] from names to members. *)
Definition index : Type := list (string * TarInfo).

(** [index.get(key)] *)
Fixpoint get (d : index) (key : string) : option TarInfo :=
  match d with
  | [] => None
  | (k, v) :: rest => if String.eqb k key then Some v else get rest key
  end.

(** [index[key] = value] *)
Fixpoint setitem (d : index) (key : string) (value : TarInfo) : index :=
  match d with
  | [] => [(key, value)]
  | (k, v) :: rest =>
      if String.eqb k key then (k, value) :: rest
      else (k, v) :: setitem rest key value
  end.

Record loader : Type := {
  video_folder : string;
  tar_index : index
}.

Definition build_index (self : loader) : result loader :=
  let? members := tarfile_open (video_folder self) in
  Ok {| video_folder := video_folder self;
        tar_index :=
          fold_left (fun tar_index member =>
                       setitem tar_index (name member) member)
            members (tar_index self) |}.

Definition __init__ (video_folder : string) : result loader :=
  let self := {| video_folder := video_folder; tar_index := [] |} in
  if endswith video_folder ".tar" then build_index self else Ok self.

(** A [TarInfo] object is always true, so [if member] asks whether the
    name was found. *)
Definition open_video (self : loader) (file_name : string)
  : result (option video) :=
  if endswith (video_folder self) ".tar" then
    let? tar := tarfile_open (video_folder self) in
    match get (tar_index self) file_name with
    | Some member =>
        match extractfile member with
        | Some video_data =>
            let? decoded := imdecode video_data in
            Ok (option_map Image decoded)
        | None => Raise AttributeError
        end
    | None => Ok None
    end
  else Ok (Some (VideoCapture (path_join (video_folder self) file_name))).

End Loader.

End VideoLoader.

(** * Notions used in the statements

    Nothing below this line belongs to the Python module: these are the
    words the properties are stated in, and a small concrete pipeline to
    run the methods on. *)

(** ** A small concrete pipeline

    Signals are the lengths of the file names, every submodule passes its
    input on, beam search answers with the ids of "hello world" followed by
    padding, and reading the file [missing.wav] fails.  It serves to run
    the methods on concrete calls. *)

Module Demo.
Import Model.

Definition token (id : Z) : string :=
  match id with
  | 0%Z => "<pad>"
  | 1%Z => "hello"
  | 2%Z => "world"
  | _ => "<unk>"
  end.

Definition demo_ids_to_text (ids : list Z) : string :=
  String.concat " " (map token ids).

Definition demo_load_batch (paths : list string)
  : result (list Z * list Z) :=
  if existsb (String.eqb "missing.wav") paths then Raise (ExternalError 2)
  else Ok (map (fun p => Z.of_nat (String.length p)) paths,
           map (fun _ => 1%Z) paths).

Definition collaborators : Collaborators := {|
  tensor := list Z;
  loss := Z;
  zero_loss := 0%Z;
  preprocessor := fun _ _ s l => Ok (s, l);
  spec_augmentation := None;
  encoder := fun s l => Ok (s, l);
  permute_0_2_1 := fun s => s;
  shape_1 := fun _ => 1%Z;
  adapter := fun s => Ok s;
  use_transf_encoder := false;
  transf_encoder := fun s _ => Ok s;
  transf_decoder := fun _ _ s _ => Ok s;
  log_softmax := fun s => Ok s;
  beam_search := fun s _ _ => Ok (map (fun _ => [1; 2; 0]%Z) s);
  ids_to_text := demo_ids_to_text;
  transf_loss := fun _ _ => Ok 0%Z;
  get_audio_to_text_bpe_dataset_from_config :=
    fun manifest => Ok (Some (map audio_filepath manifest));
  load_batch := demo_load_batch
|}.

(** The same pipeline with a loss that tells the labels apart: the sum of
    the labels it is given. *)
Definition label_sum_loss : Collaborators := {|
  tensor := list Z;
  loss := Z;
  zero_loss := 0%Z;
  preprocessor := fun _ _ s l => Ok (s, l);
  spec_augmentation := None;
  encoder := fun s l => Ok (s, l);
  permute_0_2_1 := fun s => s;
  shape_1 := fun _ => 1%Z;
  adapter := fun s => Ok s;
  use_transf_encoder := false;
  transf_encoder := fun s _ => Ok s;
  transf_decoder := fun _ _ s _ => Ok s;
  log_softmax := fun s => Ok s;
  beam_search := fun s _ _ => Ok (map (fun _ => [1; 2; 0]%Z) s);
  ids_to_text := demo_ids_to_text;
  transf_loss := fun _ labels => Ok (fold_right Z.add 0%Z (List.concat labels));
  get_audio_to_text_bpe_dataset_from_config :=
    fun manifest => Ok (Some (map audio_filepath manifest));
  load_batch := demo_load_batch
|}.

(** A model in evaluation mode whose parameters are all trainable. *)
Definition eval_unfrozen : model_state := {|
  training := false;
  dither := (1 # 100000)%Q;
  pad_to := 16%Z;
  encoder_frozen := false;
  transf_decoder_frozen := false;
  verbosity := 20%Z
|}.

(** A model in training mode with a frozen encoder. *)
Definition train_frozen_encoder : model_state := {|
  training := true;
  dither := (1 # 100000)%Q;
  pad_to := 16%Z;
  encoder_frozen := true;
  transf_decoder_frozen := false;
  verbosity := 20%Z
|}.

End Demo.

Module MaskSpec.

(** The mask row of a sample of length [l] over [n] time steps. *)
Definition row_of (n : nat) (l : Z) : list bool :=
  map (fun t => (t <? l)%Z) (map Z.of_nat (seq 0 n)).

End MaskSpec.

Module ForwardSpec.
Import Model.

Section Guard.

Context {C : Collaborators}.

(** Both signal pairs supplied, or neither; a pair counts as supplied
    when the signal and its length are both given. *)
Definition both_or_neither
    (input_signal : option tensor) (input_signal_length : option (list Z))
    (processed_signal : option tensor) (processed_signal_length : option (list Z))
  : Prop :=
  (is_not_None input_signal && is_not_None input_signal_length)
  = (is_not_None processed_signal && is_not_None processed_signal_length).

End Guard.

End ForwardSpec.

Module TranscribeSpec.
Import Model.

(** The batches of the temporary data loader. *)
Definition batches_of (paths2audio_files : list string) (batch_size : Z)
  : list (list string) :=
  batch_sampler
    (Z.to_nat (Z.min batch_size (Z.of_nat (List.length paths2audio_files))))
    [] paths2audio_files.

(** The state the batches are processed in. *)
Definition inference_state (st : model_state) : model_state :=
  set_verbosity WARNING (enter_inference st).

(** The state the [finally] block leaves behind. *)
Definition state_after (st : model_state) : model_state :=
  {| training := training st;
     dither := dither st;
     pad_to := pad_to st;
     encoder_frozen := negb (training st);
     transf_decoder_frozen := negb (training st);
     verbosity := verbosity st |}.

Section Orchestrator.

Context {C : Collaborators}.

(** The data set built from the manifest lists the manifest's audio files,
    all of them and in manifest order. *)
Definition dataset_in_order (paths2audio_files : list string) : Prop :=
  get_audio_to_text_bpe_dataset_from_config (manifest_of paths2audio_files)
  = Ok (Some paths2audio_files).

(** A batch on which the loop body succeeds with one text per file. *)
Definition batch_decodes (st : model_state) (test_batch : list string) : Prop :=
  exists texts,
    transcribe_batch st false test_batch = Ok texts /\
    List.length texts = List.length test_batch.

End Orchestrator.

End TranscribeSpec.

Module PyStrSpec.
Import PyStr.

(** [all(c.isspace() for c in s)] *)
Fixpoint all_space (s : string) : bool :=
  match s with
  | EmptyString => true
  | String c r => isspace c && all_space r
  end.

End PyStrSpec.

Module EpochEndSpec.
Import EpochEnd.

(** Levenshtein distance on word lists, the function [editdistance.eval]
    computes; used to run the aggregation on concrete outputs. *)
Fixpoint levenshtein (xs : list string) : list string -> nat :=
  match xs with
  | [] => fun ys => List.length ys
  | x :: xs' =>
      fix inner (ys : list string) : nat :=
        match ys with
        | [] => S (List.length xs')
        | y :: ys' =>
            if String.eqb x y then levenshtein xs' ys'
            else S (Nat.min (Nat.min (levenshtein xs' ys) (inner ys'))
                            (levenshtein xs' ys'))
        end
  end.

(** Scorers for concrete runs: a constant BLEU of 50 and the true edit
    distance. *)
Definition demo_scorers : Scorers Z := {|
  corpus_bleu := fun _ _ => (50 # 1)%Q;
  editdistance_eval := fun h r => Z.of_nat (levenshtein h r);
  val_loss_compute := fun _ => 0%Z
|}.

Section Aggregation.

Context {loss : Type} {scorers : Scorers loss}.

(** The step output of the scenario: three pairs, two of them with a
    ground truth that trims to nothing. *)
Definition scenario_output (l : loss) : list (Model.output_dict loss) :=
  [ {| Model.step_loss := l;
       Model.translations := ["a"; "hello there"; "b"];
       Model.ground_truths := [""; "hello world"; "  "] |} ].

(** Total reference word count and total edit distance of a list of
    (hypothesis, reference) pairs. *)
Definition total_words (pairs : list (string * string)) : Z :=
  fold_right Z.add 0%Z
    (map (fun hr => Z.of_nat (List.length (PyStr.split (snd hr)))) pairs).

Definition total_distance (pairs : list (string * string)) : Z :=
  fold_right Z.add 0%Z
    (map (fun hr => editdistance_eval (PyStr.split (fst hr))
                                      (PyStr.split (snd hr))) pairs).

(** All workers' kept pairs, concatenated in rank order. *)
Definition all_pairs (world_size : nat)
    (output_of : nat -> list (Model.output_dict loss))
  : list (string * string) :=
  List.concat (map (fun r => kept_pairs (output_of r)) (seq 0 world_size)).

(** What each worker sees after the gather: in the distributed branch the
    pairs of worker [r] in slot [r]; with a single worker its own pairs in
    slot 0. *)
Definition seen_by (world_size global_rank : nat)
    (output_of : nat -> list (Model.output_dict loss)) (r : nat)
  : list (string * string) :=
  if (1 <? world_size)%nat then kept_pairs (output_of r)
  else kept_pairs (output_of global_rank).

End Aggregation.

(** Two workers: worker 0 holds the three pairs of the scenario, worker 1
    one pair with a superfluous word. *)
Definition two_workers (r : nat) : list (Model.output_dict Z) :=
  match r with
  | 0%nat => EpochEndSpec.scenario_output 0%Z
  | _ => [ {| Model.step_loss := 0%Z;
              Model.translations := ["good morning all"];
              Model.ground_truths := ["good morning"] |} ]
  end.

End EpochEndSpec.

Module PipelineSpec.
Import Model.

Section Pipeline.

Context {C : Collaborators}.

(** The submodule calls of a complete [forward] pass, in order: the
    preprocessor for a raw signal, the augmentation when configured and in
    training mode, encoder and adapter, the transformer encoder when
    configured, decoder and head for a transcript. *)
Definition pipeline (st : model_state) (raw with_transcript : bool)
  : list module_call :=
  (if raw then [Preprocessor] else [])
  ++ (match spec_augmentation with
      | Some _ => if training st then [SpecAugment] else []
      | None => []
      end)
  ++ [Encoder; Adapter]
  ++ (if use_transf_encoder then [TransfEncoder] else [])
  ++ (if with_transcript then [TransfDecoder; LogSoftmax] else []).

(** Exactly one of the two signal pairs is supplied. *)
Definition one_signal
    (input_signal : option tensor) (input_signal_length : option (list Z))
    (processed_signal : option tensor) (processed_signal_length : option (list Z))
  : Prop :=
  xorb (is_not_None input_signal && is_not_None input_signal_length)
       (is_not_None processed_signal && is_not_None processed_signal_length)
  = true.

End Pipeline.

(** A traced computation follows a plan: the calls it makes are a prefix
    of the plan, and when it succeeds it has made all of them and its
    result satisfies [Q]. *)
Definition follows {A} (x : traced A) (plan : list module_call)
    (Q : A -> Prop) : Prop :=
  (exists rest, plan = fst x ++ rest) /\
  (forall a, snd x = Ok a -> fst x = plan /\ Q a).

End PipelineSpec.

Module AveragingSpec.

(** The mean of a value over the workers [0 .. world_size - 1], which is
    what logging with [sync_dist=True] reports. *)
Definition mean_over_workers (world_size : nat) (value : nat -> Q) : Q :=
  (fold_right Qplus 0 (map value (seq 0 world_size))
   / inject_Z (Z.of_nat world_size))%Q.

End AveragingSpec.

Module SetupSpec.
Import Setup.

(** The batches a loader yields when it is iterated in order: defined for
    a loader that neither shuffles nor drops a last batch and has a
    positive integer batch size. *)
Definition sequential_batches (arguments : loader_arguments)
  : option (list (list string)) :=
  match dl_batch_size arguments with
  | VInt b =>
      if (0 <? b)%Z && negb (truthy (dl_shuffle arguments))
         && negb (truthy (dl_drop_last arguments))
      then Some (Model.batch_sampler (Z.to_nat b) []
                   (items (dl_dataset arguments)))
      else None
  | _ => None
  end.

(** The four keys [__init__] sets or removes in the decoder's
    configuration. *)
Definition decoder_keys : list string :=
  ["vocab_size"; "library"; "model_name"; "pretrained"].

(** Whether the configuration says the data set is tarred, as
    [setup_training_data] asks it. *)
Definition is_tarred (config : dict) : bool :=
  contains config "is_tarred" && truthy (get_default config "is_tarred" VNone).

(** Factories for the examples: a data set of the given files for a
    configuration that names a manifest, none otherwise. *)
Definition demo_factories (files : list string) : Factories := {|
  lhotse_loader := unit;
  get_lhotse_dataloader_from_config := fun _ _ => Done tt;
  lhotse_dataset_len := fun _ => 0%Z;
  get_audio_to_text_bpe_dataset_from_config := fun config =>
    match get config "manifest_filepath" with
    | Some (VStr _) => Done (Some {| items := files; has_collate_fn := true |})
    | _ => Done None
    end
|}.

(** A tarred training configuration that asks for shuffling, five files,
    and the loader the setup builds from them. *)
Definition demo_config : dict :=
  [ ("manifest_filepath", VStr "train.json");
    ("is_tarred", VBool true);
    ("shuffle", VBool true);
    ("batch_size", VInt 2) ].

Definition demo_files : list string :=
  ["a.wav"; "b.wav"; "c.wav"; "d.wav"; "e.wav"].

(** The doubles 0.7, 0.29 and 1.0. *)
Definition seven_tenths : float :=
  SpecFloat.S754_finite false 6305039478318694 (-53).

Definition twenty_nine_hundredths : float :=
  SpecFloat.S754_finite false 5224175567749775 (-54).

Definition one : float :=
  SpecFloat.S754_finite false 4503599627370496 (-52).

Definition demo_loader : data_loader (F := demo_factories demo_files) :=
  Torch {| dl_dataset := {| items := demo_files; has_collate_fn := true |};
           dl_batch_size := VInt 2;
           dl_collate_fn := OfDataset;
           dl_drop_last := VBool false;
           dl_shuffle := VBool false;
           dl_num_workers := VInt 0;
           dl_pin_memory := VBool false |}.

End SetupSpec.

Module VideoSpec.
Import VideoLoader.

(** The last member of an archive that has the given name. *)
Definition last_member (members : list TarInfo) (file_name : string)
  : option TarInfo :=
  find (fun member => String.eqb (name member) file_name) (rev members).

(** An archive with two members of one name, and a decoder that takes
    any data that is not empty for an image. *)
Definition demo_members : list TarInfo :=
  [ {| name := "a.mp4"; extractfile := Some [Byte.x01] |};
    {| name := "clips"; extractfile := None |};
    {| name := "a.mp4"; extractfile := Some [Byte.x02; Byte.x03] |} ].

Definition demo_externals : Externals := {|
  image := list Byte.byte;
  tarfile_open := fun path =>
    if String.eqb path "videos.tar" then Ok demo_members
    else Raise (ExternalError 2);
  imdecode := fun data =>
    match data with
    | [] => Raise (ExternalError 1)
    | _ => Ok (Some data)
    end;
  path_join := fun folder file => (folder ++ "/" ++ file)%string
|}.

End VideoSpec.

(** * Properties *)



Example strip_ex1 :
  SpecialTokens._strip_special_tokens "<pad>hello <en>world<<x>y>" = "hello worldy>".
Proof. reflexivity. Qed.

Example split_ex1 : PyStr.split "  hello   world " = ["hello"; "world"].
Proof. reflexivity. Qed.

Example strip_ws_ex1 : PyStr.strip "  a b  " = "a b".
Proof. reflexivity. Qed.

(** ** Facts about [_strip_special_tokens] *)

Module SpecialTokensFacts.
Import SpecialTokens.

Lemma after_gt_shorter s r : after_gt s = Some r -> (length r < length s)%nat.
Proof.
  revert r; induction s as [|c s IH]; intros r; simpl; [discriminate|].
  destruct (is_gt c).
  - intros [= <-]. lia.
  - intros H. specialize (IH _ H). lia.
Qed.

Lemma match_here_shorter s r : match_here s = Some r -> (length r < length s)%nat.
Proof.
  destruct s as [|c [|d s]]; simpl; try discriminate.
  destruct (is_lt c && negb (is_gt d)); [|discriminate].
  intros H. apply after_gt_shorter in H. lia.
Qed.

Lemma strip_cons c r :
  _strip_special_tokens (String c r) =
  match match_here (String c r) with
  | Some rest => _strip_special_tokens rest
  | None => String c (_strip_special_tokens r)
  end.
Proof.
  simp _strip_special_tokens.
  destruct (Logic.inspect (match_here (String c r))) as [[rest|] Heq];
    cbn [_strip_special_tokens_unfold_clause_2]; rewrite Heq; reflexivity.
Qed.

Lemma strip_nil : _strip_special_tokens EmptyString = EmptyString.
Proof. reflexivity. Qed.

Lemma gt_not_lt c : is_gt c = true -> is_lt c = false.
Proof.
  unfold is_gt, is_lt. intros H. apply Ascii.eqb_eq in H. subst c. reflexivity.
Qed.

(** With no [>] to the right, no match can start on [c]. *)
Lemma match_here_no_gt c u : after_gt u = None -> match_here (String c u) = None.
Proof.
  destruct u as [|d u]; simpl; [reflexivity|].
  destruct (is_gt d); [discriminate|].
  intros ->. destruct (is_lt c); reflexivity.
Qed.

Lemma match_here_not_lt c u : is_lt c = false -> match_here (String c u) = None.
Proof.
  intros H. destruct u as [|d u]; simpl; [reflexivity|]. rewrite H. reflexivity.
Qed.

(** Removing matches never creates a [>]. *)
Lemma strip_no_gt s : after_gt s = None -> after_gt (_strip_special_tokens s) = None.
Proof.
  induction s as [|c r IH]; [reflexivity|].
  intros H. rewrite strip_cons, (match_here_no_gt c r).
  - simpl in *. destruct (is_gt c); [discriminate|]. auto.
  - simpl in H. destruct (is_gt c); [discriminate|exact H].
Qed.

(** A position where the scan copied a character still has no match after
    the text to its right has been stripped. *)
Lemma match_here_strip_tail c r :
  match_here (String c r) = None ->
  match_here (String c (_strip_special_tokens r)) = None.
Proof.
  intros H.
  destruct (is_lt c) eqn:Hc; [|apply match_here_not_lt; exact Hc].
  destruct r as [|d r']; [reflexivity|].
  destruct (is_gt d) eqn:Hd.
  - rewrite strip_cons, (match_here_not_lt d r' (gt_not_lt d Hd)).
    simpl. rewrite Hc, Hd. reflexivity.
  - apply match_here_no_gt, strip_no_gt.
    simpl in *. rewrite Hc, Hd in *. simpl in H. exact H.
Qed.

Lemma strip_idem_bounded n :
  forall s, (length s < n)%nat ->
  _strip_special_tokens (_strip_special_tokens s) = _strip_special_tokens s.
Proof.
  induction n as [|n IH]; intros s Hlen; [lia|].
  destruct s as [|c r]; [reflexivity|].
  rewrite strip_cons.
  destruct (match_here (String c r)) as [rest|] eqn:Hm.
  - apply IH. apply match_here_shorter in Hm. lia.
  - rewrite strip_cons, (match_here_strip_tail c r Hm).
    f_equal. apply IH. simpl in Hlen. lia.
Qed.

(** C8: stripping the substrings that match [<[^>]+>] is idempotent,
    [strip (strip x) = strip x] for every string [x]. *)
Theorem strip_special_tokens_idempotent (x : string) :
  _strip_special_tokens (_strip_special_tokens x) = _strip_special_tokens x.
Proof. apply (strip_idem_bounded (S (length x))). lia. Qed.

(** What is left after stripping has no match of the pattern. *)
Lemma strip_has_no_special_token s :
  has_special_token (_strip_special_tokens s) = false.
Proof.
  remember (S (length s)) as n eqn:Hn.
  assert (Hlen : (length s < n)%nat) by lia. clear Hn.
  revert s Hlen. induction n as [|n IH]; intros s Hlen; [lia|].
  destruct s as [|c r]; [reflexivity|].
  rewrite strip_cons.
  destruct (match_here (String c r)) as [rest|] eqn:Hm.
  - apply IH. apply match_here_shorter in Hm. lia.
  - change (match match_here (String c (_strip_special_tokens r)) with
            | Some _ => true
            | None => has_special_token (_strip_special_tokens r)
            end = false).
    rewrite (match_here_strip_tail c r Hm). apply IH. simpl in Hlen. lia.
Qed.

End SpecialTokensFacts.

(** ** Facts about [lens_to_mask] *)

Module MaskFacts.
Import Torch MaskSpec.

Lemma combine_repeat_l {A B} (x : A) (l : list B) :
  combine (List.repeat x (List.length l)) l = map (fun y => (x, y)) l.
Proof. induction l as [|y l IH]; simpl; [reflexivity|]. now rewrite IH. Qed.

Lemma lens_to_mask_rows lens max_length :
  (0 <= max_length)%Z ->
  lens_to_mask lens max_length = Ok (map (row_of (Z.to_nat max_length)) lens).
Proof.
  intros HT. unfold lens_to_mask, arange.
  destruct (max_length <? 0)%Z eqn:E; [apply Z.ltb_lt in E; lia|].
  simpl. unfold lt_column, repeat_rows. rewrite combine_repeat_l, map_map.
  reflexivity.
Qed.

Lemma row_of_length n l : List.length (row_of n l) = n.
Proof. unfold row_of. now rewrite !length_map, length_seq. Qed.

Lemma row_of_nth n l t :
  (t < n)%nat -> nth_error (row_of n l) t = Some (Z.of_nat t <? l)%Z.
Proof.
  intros Ht. unfold row_of. rewrite map_map.
  rewrite nth_error_map.
  rewrite (nth_error_nth' _ 0%nat) by (rewrite length_seq; exact Ht).
  rewrite seq_nth by exact Ht. reflexivity.
Qed.

Lemma row_of_S n l :
  row_of (S n) l = row_of n l ++ [(Z.of_nat n <? l)%Z].
Proof. unfold row_of. rewrite seq_S, !map_app. reflexivity. Qed.

Lemma count_true_app r1 r2 :
  count_true (r1 ++ r2) = (count_true r1 + count_true r2)%nat.
Proof. unfold count_true. now rewrite filter_app, length_app. Qed.

Lemma count_true_row_of n l :
  count_true (row_of n l) = Nat.min (Z.to_nat l) n.
Proof.
  induction n as [|n IH]; [now rewrite Nat.min_0_r|].
  rewrite row_of_S, count_true_app, IH.
  destruct (Z.of_nat n <? l)%Z eqn:E; unfold count_true; simpl.
  - apply Z.ltb_lt in E. lia.
  - apply Z.ltb_ge in E. lia.
Qed.

Lemma row_of_all_false n l : (l <= 0)%Z -> forallb negb (row_of n l) = true.
Proof.
  intros Hl. unfold row_of. rewrite map_map. apply forallb_forall.
  intros b Hb. apply in_map_iff in Hb. destruct Hb as [t [<- _]].
  destruct (Z.of_nat t <? l)%Z eqn:E; [apply Z.ltb_lt in E; lia|reflexivity].
Qed.

Lemma row_of_all_true n l :
  (Z.of_nat n <= l)%Z -> forallb (fun b => b) (row_of n l) = true.
Proof.
  intros Hl. unfold row_of. rewrite map_map. apply forallb_forall.
  intros b Hb. apply in_map_iff in Hb. destruct Hb as [t [<- Ht]].
  apply in_seq in Ht. apply Z.ltb_lt. lia.
Qed.

(** C6: for a length vector [lens] and a max time [max_length],
    [lens_to_mask] returns (without raising) one row per sample, each of
    [max_length] entries, with entry [t] of row [i] true exactly when
    [t < lens[i]]; the number of true entries of row [i] is
    [min(lens[i], max_length)]; a zero length gives an all-false row and a
    length of at least [max_length] an all-true row.  The function is a
    pure value of its two arguments. *)
Theorem lens_to_mask_spec (lens : list Z) (max_length : Z) :
  (0 <= max_length)%Z ->
  Forall (fun l => (0 <= l)%Z) lens ->
  exists mask,
    lens_to_mask lens max_length = Ok mask /\
    List.length mask = List.length lens /\
    forall i l, nth_error lens i = Some l ->
      exists row,
        nth_error mask i = Some row /\
        Z.of_nat (List.length row) = max_length /\
        (forall t, (0 <= t < max_length)%Z ->
           nth_error row (Z.to_nat t) = Some (t <? l)%Z) /\
        Z.of_nat (count_true row) = Z.min l max_length /\
        (l = 0%Z -> forallb negb row = true) /\
        ((max_length <= l)%Z -> forallb (fun b => b) row = true).
Proof.
  intros HT Hlens.
  exists (map (row_of (Z.to_nat max_length)) lens).
  split; [apply lens_to_mask_rows; exact HT|].
  split; [apply length_map|].
  intros i l Hi. exists (row_of (Z.to_nat max_length) l).
  split; [rewrite nth_error_map, Hi; reflexivity|].
  split; [rewrite row_of_length; lia|].
  split.
  { intros t Ht. rewrite row_of_nth by lia. now rewrite Z2Nat.id by lia. }
  split.
  { rewrite count_true_row_of.
    assert (0 <= l)%Z.
    { rewrite Forall_forall in Hlens. apply Hlens.
      eapply nth_error_In; eauto. }
    lia. }
  split.
  - intros ->. apply row_of_all_false. lia.
  - intros Hl. apply row_of_all_true. lia.
Qed.

(** [lens_to_mask_spec] at lengths 0, 2 and 5 over three time steps. *)
Lemma lens_to_mask_spec_witness :
  exists mask,
    lens_to_mask [0; 2; 5]%Z 3%Z = Ok mask /\
    List.length mask = 3%nat /\
    forall i l, nth_error [0; 2; 5]%Z i = Some l ->
      exists row,
        nth_error mask i = Some row /\
        Z.of_nat (List.length row) = 3%Z /\
        (forall t, (0 <= t < 3)%Z ->
           nth_error row (Z.to_nat t) = Some (t <? l)%Z) /\
        Z.of_nat (count_true row) = Z.min l 3 /\
        (l = 0%Z -> forallb negb row = true) /\
        ((3 <= l)%Z -> forallb (fun b => b) row = true).
Proof.
  apply (lens_to_mask_spec [0; 2; 5]%Z 3%Z).
  - lia.
  - repeat constructor; lia.
Defined.

Example lens_to_mask_ex :
  lens_to_mask [0; 2; 5]%Z 3%Z =
  Ok [[false; false; false]; [true; true; false]; [true; true; true]].
Proof. reflexivity. Qed.

(** A negative time bound is refused by [torch.arange]. *)
Lemma lens_to_mask_negative lens max_length :
  (max_length < 0)%Z -> lens_to_mask lens max_length = Raise RuntimeError.
Proof.
  intros H. unfold lens_to_mask, arange.
  apply Z.ltb_lt in H. rewrite H. reflexivity.
Qed.

(** The entry rule itself needs no sign condition on the lengths. *)
Lemma lens_to_mask_entry lens max_length i l t :
  (0 <= t < max_length)%Z ->
  nth_error lens i = Some l ->
  exists mask row,
    lens_to_mask lens max_length = Ok mask /\
    nth_error mask i = Some row /\
    nth_error row (Z.to_nat t) = Some (t <? l)%Z.
Proof.
  intros Ht Hi.
  exists (map (row_of (Z.to_nat max_length)) lens), (row_of (Z.to_nat max_length) l).
  split; [apply lens_to_mask_rows; lia|].
  split; [rewrite nth_error_map, Hi; reflexivity|].
  rewrite row_of_nth by lia. now rewrite Z2Nat.id by lia.
Qed.

End MaskFacts.

(** ** Facts about the padded vocabulary size *)

Module VocabFacts.

(** [ceil(v / 8)] in integer terms. *)
Lemma ceil_div_8 (v : Z) :
  ceil (inject_Z v / inject_Z 8)%Q = (- ((- v) / 8))%Z.
Proof.
  unfold ceil, Qceiling, Qfloor, Qdiv, Qmult, Qinv, Qopp, inject_Z. simpl.
  rewrite Z.mul_1_r. reflexivity.
Qed.

Lemma vocab_size_eq (v : Z) : vocab_size v = (8 * - ((- v) / 8))%Z.
Proof. unfold vocab_size. now rewrite ceil_div_8. Qed.

(** [ceil] is the least integer not below its argument. *)
Lemma ceil_least (q : Q) (z : Z) :
  (q <= inject_Z (ceil q))%Q /\ ((q <= inject_Z z)%Q -> (ceil q <= z)%Z).
Proof.
  split; [apply Qle_ceiling|].
  intros H. unfold ceil.
  rewrite <- (Qceiling_Z z). apply Qceiling_resp_le. exact H.
Qed.

(** C9: the vocabulary size given to the decoder and to the log-softmax
    head is [8 * ceil(tokenizer.vocab_size / 8)]: a multiple of 8, not
    below the tokenizer's size, and the smallest such number. *)
Theorem vocab_size_next_multiple_of_8 (v : Z) :
  init_sizes (Some v) =
    Ok {| transf_decoder_vocab_size := vocab_size v;
          log_softmax_num_classes := vocab_size v |} /\
  vocab_size v = (8 * ceil (inject_Z v / inject_Z 8)%Q)%Z /\
  (exists k, vocab_size v = 8 * k)%Z /\
  (v <= vocab_size v)%Z /\
  (forall m k, m = (8 * k)%Z -> (v <= m)%Z -> (vocab_size v <= m)%Z).
Proof.
  split; [reflexivity|]. split; [reflexivity|].
  rewrite vocab_size_eq.
  pose proof (Z.div_mod (- v) 8 ltac:(lia)) as Hdm.
  pose proof (Z.mod_pos_bound (- v) 8 ltac:(lia)) as Hm.
  split; [eexists; reflexivity|].
  split; [lia|].
  intros m k -> Hk.
  assert (- k <= (- v) / 8)%Z by (apply Z.div_le_lower_bound; lia).
  lia.
Qed.

Example vocab_size_ex :
  map vocab_size [0; 1; 8; 9; 1000; 1023; 1024; 32001]%Z =
  [0; 8; 8; 16; 1000; 1024; 1024; 32008]%Z.
Proof. reflexivity. Qed.

(** Without a tokenizer configuration the constructor raises at once. *)
Lemma init_without_tokenizer : init_sizes None = Raise ValueError.
Proof. reflexivity. Qed.

End VocabFacts.

(** ** Facts about the teacher-forcing shift *)

Module ShiftFacts.
Import Torch Model.

Lemma slice_drop_last {A} (row : list A) :
  slice None (Some (-1)%Z) row = firstn (List.length row - 1) row.
Proof.
  unfold slice, slice_bound. simpl.
  replace (Z.to_nat (Z.max 0 (Z.of_nat (List.length row) + -1)))
    with (List.length row - 1)%nat by lia.
  now rewrite Nat.sub_0_r.
Qed.

Lemma slice_drop_first {A} (row : list A) :
  slice (Some 1%Z) None row = skipn 1 row.
Proof.
  unfold slice, slice_bound. simpl.
  destruct row as [|x row]; [reflexivity|].
  replace (Nat.min (List.length (x :: row)) (Pos.to_nat 1)) with 1%nat
    by (simpl; lia).
  simpl. rewrite Nat.sub_0_r. apply firstn_all.
Qed.

(** Row by row: decoder inputs are positions [0 .. n-2] of the transcript
    and labels are positions [1 .. n-1]. *)
Lemma shift_row (row : list Z) :
  let n := List.length row in
  let inputs := slice None (Some (-1)%Z) row in
  let labels := slice (Some 1%Z) None row in
  List.length inputs = (n - 1)%nat /\
  List.length labels = (n - 1)%nat /\
  forall i, (i < n - 1)%nat ->
    nth_error inputs i = nth_error row i /\
    nth_error labels i = nth_error row (i + 1).
Proof.
  cbv zeta. rewrite slice_drop_last, slice_drop_first.
  split; [rewrite length_firstn; lia|].
  split; [rewrite length_skipn; lia|].
  intros i Hi. split.
  - rewrite nth_error_firstn.
    destruct (i <? List.length row - 1)%nat eqn:E; [reflexivity|].
    apply Nat.ltb_ge in E. lia.
  - rewrite nth_error_skipn. f_equal. lia.
Qed.

Section Loss.

Context {C : Collaborators}.

(** C7: for a transcript whose rows have [n] positions, the decoder is fed
    positions [0 .. n-2] and the loss function [transf_loss] is given
    positions [1 .. n-1] as labels, so the input at position [i] is scored
    against the transcript token at position [i+1]; this holds for the
    training loss ([compute_audio_loss]) and for the loss of a validation
    step. *)
Theorem labels_are_transcript_shifted_by_one
    (st : model_state) (signal : tensor) (signal_len : list Z)
    (transcript : list (list Z)) (transcript_len : list Z) :
  (* the two slices, row by row *)
  (List.length (input_ids_of transcript) = List.length transcript /\
   List.length (labels_of transcript) = List.length transcript /\
   forall b row, nth_error transcript b = Some row ->
     exists inputs labels,
       nth_error (input_ids_of transcript) b = Some inputs /\
       nth_error (labels_of transcript) b = Some labels /\
       List.length inputs = (List.length row - 1)%nat /\
       List.length labels = (List.length row - 1)%nat /\
       forall i, (i < List.length row - 1)%nat ->
         nth_error inputs i = nth_error row i /\
         nth_error labels i = nth_error row (i + 1)) /\
  (* training: forward sees the inputs, the loss function sees the labels *)
  compute_audio_loss st
    (Some (signal, signal_len, transcript, transcript_len)) =
    (let? out :=
       snd (forward st (Some signal) (Some signal_len) None None
              (Some (input_ids_of transcript)) (Some transcript_len)) in
     match fst (fst (fst out)) with
     | Some log_probs => transf_loss log_probs (labels_of transcript)
     | None => Raise AttributeError
     end) /\
  (* validation: the stored loss is what the loss function gives for the
     log-probabilities of the inputs and the labels *)
  (forall dali_processed out,
     validation_step st dali_processed
       (signal, signal_len, transcript, transcript_len) = Ok out ->
     exists log_probs encoded_len enc_states enc_mask,
       snd (if dali_processed
            then forward st None None (Some signal) (Some signal_len)
                   (Some (input_ids_of transcript)) (Some transcript_len)
            else forward st (Some signal) (Some signal_len) None None
                   (Some (input_ids_of transcript)) (Some transcript_len))
         = Ok (Some log_probs, encoded_len, enc_states, enc_mask) /\
       transf_loss log_probs (labels_of transcript) = Ok (step_loss out)).
Proof.
  split; [|split].
  - unfold input_ids_of, labels_of, slice_cols.
    split; [apply length_map|]. split; [apply length_map|].
    intros b row Hrow.
    exists (slice None (Some (-1)%Z) row), (slice (Some 1%Z) None row).
    rewrite !nth_error_map, Hrow. simpl.
    split; [reflexivity|]. split; [reflexivity|].
    apply (shift_row row).
  - unfold compute_audio_loss, apply_transf_loss.
    destruct (snd (forward st (Some signal) (Some signal_len) None None
                     (Some (input_ids_of transcript)) (Some transcript_len)))
      as [[[[lp el] es] em]|e]; reflexivity.
  - intros dali_processed out. unfold validation_step.
    destruct (snd (if dali_processed then _ else _))
      as [[[[lp el] es] em]|e]; simpl; [|discriminate].
    destruct (beam_search es em _) as [hyps|e]; simpl; [|discriminate].
    unfold apply_transf_loss.
    destruct lp as [lp|]; simpl; [|discriminate].
    destruct (transf_loss lp (labels_of transcript)) as [l|e] eqn:El;
      simpl; [|discriminate].
    intros [= <-]. exists lp, el, es, em. split; [reflexivity|exact El].
Qed.

End Loss.

Example shift_ex :
  input_ids_of [[1; 7; 8; 9; 2]; [1; 5; 2; 0; 0]]%Z
    = [[1; 7; 8; 9]; [1; 5; 2; 0]]%Z /\
  labels_of [[1; 7; 8; 9; 2]; [1; 5; 2; 0; 0]]%Z
    = [[7; 8; 9; 2]; [5; 2; 0; 0]]%Z.
Proof. split; reflexivity. Qed.

End ShiftFacts.

(** ** Facts about [forward] *)

Module ForwardFacts.
Import Model ForwardSpec.

Section Guard.

Context {C : Collaborators}.

Lemma tbind_log_nonempty {A B} (x : traced A) (k : A -> traced B) :
  fst x <> [] -> fst (tbind x k) <> [].
Proof.
  destruct x as [log [a|e]]; simpl; [|tauto].
  destruct (k a) as [log' r]. simpl. intros H Happ.
  apply app_eq_nil in Happ. tauto.
Qed.

Lemma tbind_tret {A B} (a : A) (k : A -> traced B) : tbind (tret a) k = k a.
Proof. unfold tbind, tret. destruct (k a). reflexivity. Qed.

(** With both pairs or neither, [forward] raises before any submodule has
    been called. *)
Lemma forward_guard_raises st s sl p pl t tl :
  both_or_neither s sl p pl ->
  forward st s sl p pl t tl = ([], Raise ValueError).
Proof.
  unfold both_or_neither, forward. intros ->.
  rewrite xorb_nilpotent. reflexivity.
Qed.

(** With exactly one pair, some submodule is called: the guard is passed. *)
Lemma forward_guard_passes st s sl p pl t tl :
  ~ both_or_neither s sl p pl ->
  fst (forward st s sl p pl t tl) <> [].
Proof.
  unfold both_or_neither, forward. intros Hx.
  destruct (is_not_None s && is_not_None sl) eqn:Hin;
    destruct (is_not_None p && is_not_None pl) eqn:Hpr;
    try (exfalso; apply Hx; reflexivity); cbn [xorb Bool.eqb negb].
  - (* raw signal: the preprocessor is called first *)
    destruct s as [s|]; [|discriminate]. destruct sl as [sl|]; [|discriminate].
    apply tbind_log_nonempty. simpl. discriminate.
  - (* processed signal: the encoder is reached *)
    destruct p as [p|]; [|discriminate]. destruct pl as [pl|]; [|discriminate].
    rewrite tbind_tret.
    destruct spec_augmentation as [augment|].
    + destruct (training st).
      * apply tbind_log_nonempty. simpl. discriminate.
      * rewrite tbind_tret. apply tbind_log_nonempty. simpl. discriminate.
    + rewrite tbind_tret. apply tbind_log_nonempty. simpl. discriminate.
Qed.

End Guard.

End ForwardFacts.

(** ** Facts about [transcribe] *)

Module TranscribeFacts.
Import Model TranscribeSpec.

Lemma concat_batch_sampler {A} (n : nat) (sampler batch : list A) :
  List.concat (batch_sampler n batch sampler) = batch ++ sampler.
Proof.
  revert batch. induction sampler as [|idx rest IH]; intros batch; simpl.
  - destruct batch; simpl; [reflexivity|]. now rewrite !app_nil_r.
  - destruct (List.length (batch ++ [idx]) =? n)%nat; simpl; rewrite IH.
    + now rewrite <- app_assoc.
    + now rewrite <- app_assoc.
Qed.

Lemma manifest_lists_paths (paths : list string) :
  map audio_filepath (manifest_of paths) = paths.
Proof. unfold manifest_of. rewrite map_map. simpl. apply map_id. Qed.

Section Orchestrator.

Context {C : Collaborators}.

Lemma setup_dataloader_ok (paths : list string) (batch_size : Z) :
  paths <> [] -> (1 <= batch_size)%Z -> dataset_in_order paths ->
  _setup_transcribe_dataloader paths batch_size (manifest_of paths)
  = Ok (Some (batches_of paths batch_size)).
Proof.
  intros Hne Hbs Hds.
  unfold _setup_transcribe_dataloader, _setup_dataloader_from_config.
  rewrite Hds. cbn [bind]. unfold DataLoader.
  destruct paths as [|p ps]; [congruence|].
  destruct (Z.min batch_size (Z.of_nat (List.length (p :: ps))) <=? 0)%Z eqn:E.
  - apply Z.leb_le in E. simpl List.length in E. lia.
  - reflexivity.
Qed.

Lemma transcribe_loop_ok st rh batches :
  forall per_batch hypotheses,
  Forall2 (fun b ts => transcribe_batch st rh b = Ok ts) batches per_batch ->
  transcribe_loop st rh batches hypotheses
  = Ok (hypotheses ++ List.concat per_batch).
Proof.
  induction batches as [|b rest IH]; intros per_batch hyps H; inversion H; subst.
  - simpl. now rewrite app_nil_r.
  - simpl. match goal with Hb : transcribe_batch _ _ _ = _ |- _ => rewrite Hb end.
    simpl. erewrite IH by eassumption. now rewrite app_assoc.
Qed.

(** The loop stops at the first batch that raises, with that exception. *)
Lemma transcribe_loop_raises st rh pre b post e :
  forall hypotheses,
  Forall (fun b' => exists ts, transcribe_batch st rh b' = Ok ts) pre ->
  transcribe_batch st rh b = Raise e ->
  transcribe_loop st rh (pre ++ b :: post) hypotheses = Raise e.
Proof.
  induction pre as [|b' pre IH]; intros hyps Hpre Hb; simpl.
  - rewrite Hb. reflexivity.
  - inversion Hpre as [|? ? [ts Hts] Hrest]; subst.
    rewrite Hts. simpl. apply IH; assumption.
Qed.

(** The state on exit, once the [try] block has been entered. *)
Lemma transcribe_state p ps batch_size logprobs return_hypotheses st :
  return_hypotheses && logprobs = false ->
  fst (transcribe (Some (p :: ps)) batch_size logprobs return_hypotheses st)
  = state_after st.
Proof.
  intros Hflags. unfold transcribe. rewrite Hflags.
  unfold state_after. destruct st as [tr d pt ef df v].
  destruct tr; reflexivity.
Qed.

(** The outcome, once the [try] block has been entered: that of the data
    loader and of the loop, whatever it is. *)
Lemma transcribe_outcome p ps batch_size logprobs return_hypotheses st :
  return_hypotheses && logprobs = false ->
  snd (transcribe (Some (p :: ps)) batch_size logprobs return_hypotheses st)
  = (let? temporary_datalayer :=
       _setup_transcribe_dataloader (p :: ps) batch_size
         (manifest_of (p :: ps)) in
     let? hypotheses :=
       match temporary_datalayer with
       | None => Raise TypeError
       | Some temporary_datalayer =>
           transcribe_loop (inference_state st) return_hypotheses
             temporary_datalayer []
       end in
     Ok (Hypotheses hypotheses)).
Proof.
  intros Hflags. unfold transcribe. rewrite Hflags.
  cbv zeta. cbn [snd].
  destruct (_setup_transcribe_dataloader _ _ _) as [[dl|]|e]; reflexivity.
Qed.

Lemma transcribe_batch_texts st b texts :
  transcribe_batch st false b = Ok texts ->
  exists beam_hypotheses, texts = map ids_to_text beam_hypotheses.
Proof.
  unfold transcribe_batch.
  destruct (load_batch b) as [[sig len]|e]; simpl; [|discriminate].
  destruct (snd (forward _ _ _ _ _ _ _)) as [[[[lp el] es] em]|e]; simpl;
    [|discriminate].
  destruct (beam_search es em None) as [hyps|e]; simpl; [|discriminate].
  intros [= <-]. exists hyps. reflexivity.
Qed.

Lemma decoded_batches st batches :
  Forall (batch_decodes st) batches ->
  exists per_batch,
    Forall2 (fun b ts => transcribe_batch st false b = Ok ts /\
                         List.length ts = List.length b) batches per_batch.
Proof.
  induction 1 as [|b rest [ts [Hts Hlen]] _ [per_batch IH]].
  - exists []. constructor.
  - exists (ts :: per_batch). constructor; [split; assumption|exact IH].
Qed.

Lemma Forall2_In_r {A B} (P : A -> B -> Prop) xs ys y :
  Forall2 P xs ys -> In y ys -> exists x, In x xs /\ P x y.
Proof.
  induction 1 as [|x y' xs ys Hp _ IH]; simpl; [tauto|].
  intros [<-|Hin].
  - exists x. tauto.
  - destruct (IH Hin) as [x' [Hx' Hp']]. exists x'. tauto.
Qed.

Lemma length_concat_Forall2 {A B} (P : list A -> list B -> Prop) xs ys :
  Forall2 (fun x y => P x y /\ List.length y = List.length x) xs ys ->
  List.length (List.concat ys) = List.length (List.concat xs).
Proof.
  induction 1 as [|x y xs ys [_ Hl] _ IH]; simpl; [reflexivity|].
  rewrite !length_app. congruence.
Qed.

(** C10: called with [None] or with an empty list, [transcribe] (and
    [translate]) returns the empty dict, which is not a list of strings,
    and leaves every attribute of the model as it was, whatever the flags
    and the batch size. *)
Theorem transcribe_without_files
    (batch_size : Z) (logprobs return_hypotheses : bool) (st : model_state) :
  transcribe None batch_size logprobs return_hypotheses st
    = (st, Ok EmptyDict) /\
  transcribe (Some []) batch_size logprobs return_hypotheses st
    = (st, Ok EmptyDict) /\
  translate None batch_size logprobs return_hypotheses st
    = (st, Ok EmptyDict) /\
  translate (Some []) batch_size logprobs return_hypotheses st
    = (st, Ok EmptyDict) /\
  (forall hypotheses, EmptyDict <> Hypotheses hypotheses).
Proof. repeat split; discriminate. Qed.

(** C3: [forward] raises [ValueError] before any submodule is called
    exactly when both signal pairs or neither are supplied; [transcribe],
    called on a non-empty list of files as its contract has it, raises
    [ValueError] when [logprobs] and [return_hypotheses] are both true,
    at once: nothing has been processed and the model is untouched. *)
Theorem mutually_exclusive_arguments (st : model_state) :
  (forall s sl p pl t tl,
     forward st s sl p pl t tl = ([], Raise ValueError)
     <-> ForwardSpec.both_or_neither s sl p pl) /\
  (forall paths2audio_files batch_size,
     paths2audio_files <> [] ->
     transcribe (Some paths2audio_files) batch_size true true st
     = (st, Raise ValueError)).
Proof.
  split.
  - intros s sl p pl t tl. split.
    + intros Hf.
      destruct (bool_dec (is_not_None s && is_not_None sl)
                         (is_not_None p && is_not_None pl)) as [E|E];
        [exact E|].
      exfalso. apply (ForwardFacts.forward_guard_passes st s sl p pl t tl E).
      rewrite Hf. reflexivity.
    + apply ForwardFacts.forward_guard_raises.
  - intros [|p ps] bs Hne; [congruence|]. reflexivity.
Qed.

(** C4, as amended: for a call with at least one file, on every exit path
    the training flag, [dither] and [pad_to] (and the logging verbosity)
    are back at their values before the call; encoder and decoder are
    untouched when the flags are refused, and otherwise end unfrozen if
    the model was in training mode before the call and frozen if it was
    not; an exception raised by a batch, after any number of batches that
    went through, is the outcome of the call. *)
Theorem transcribe_cleanup
    (paths2audio_files : list string) (batch_size : Z)
    (logprobs return_hypotheses : bool) (st : model_state) :
  paths2audio_files <> [] ->
  let st' := fst (transcribe (Some paths2audio_files) batch_size logprobs
                    return_hypotheses st) in
  let outcome := snd (transcribe (Some paths2audio_files) batch_size logprobs
                        return_hypotheses st) in
  training st' = training st /\
  dither st' = dither st /\
  pad_to st' = pad_to st /\
  verbosity st' = verbosity st /\
  encoder_frozen st' =
    (if return_hypotheses && logprobs then encoder_frozen st
     else negb (training st)) /\
  transf_decoder_frozen st' =
    (if return_hypotheses && logprobs then transf_decoder_frozen st
     else negb (training st)) /\
  (forall pre test_batch post e,
     return_hypotheses && logprobs = false ->
     (1 <= batch_size)%Z ->
     dataset_in_order paths2audio_files ->
     batches_of paths2audio_files batch_size = pre ++ test_batch :: post ->
     Forall (fun b => exists ts,
               transcribe_batch (inference_state st) return_hypotheses b
               = Ok ts) pre ->
     transcribe_batch (inference_state st) return_hypotheses test_batch
     = Raise e ->
     outcome = Raise e).
Proof.
  intros Hne. destruct paths2audio_files as [|p ps]; [congruence|].
  destruct (return_hypotheses && logprobs) eqn:Hflags.
  - unfold transcribe. rewrite Hflags. cbn [fst snd].
    repeat split; try reflexivity. intros; discriminate.
  - cbv zeta. rewrite transcribe_state by exact Hflags.
    repeat split; try reflexivity.
    intros pre b post e _ Hbs Hds Hsplit Hpre Hb.
    rewrite transcribe_outcome by exact Hflags.
    rewrite setup_dataloader_ok by (congruence || assumption).
    rewrite Hsplit. cbn [bind].
    rewrite (transcribe_loop_raises _ _ pre b post e [] Hpre Hb).
    reflexivity.
Qed.

(** C5, as amended: given at least one file, a positive batch size and
    both flags false, if the data set lists the files in order and every
    batch of the data loader goes through with one beam hypothesis per
    file, [transcribe] returns a list with one text per input file, batch
    after batch in input order, and each text is what the tokenizer's
    [ids_to_text] gave for a hypothesis; for two files and batch size 4
    this is one batch of both files, and the two texts are returned as the
    tokenizer produced them, special tokens included. *)
Theorem transcribe_one_text_per_file
    (paths2audio_files : list string) (batch_size : Z) (st : model_state) :
  paths2audio_files <> [] ->
  (1 <= batch_size)%Z ->
  dataset_in_order paths2audio_files ->
  Forall (batch_decodes (inference_state st))
         (batches_of paths2audio_files batch_size) ->
  exists per_batch,
    List.concat (batches_of paths2audio_files batch_size) = paths2audio_files /\
    Forall2 (fun b ts =>
               transcribe_batch (inference_state st) false b = Ok ts /\
               List.length ts = List.length b)
            (batches_of paths2audio_files batch_size) per_batch /\
    snd (transcribe (Some paths2audio_files) batch_size false false st)
      = Ok (Hypotheses (List.concat per_batch)) /\
    List.length (List.concat per_batch) = List.length paths2audio_files /\
    Forall (fun t => exists ids, t = ids_to_text ids) (List.concat per_batch) /\
    (forall f1 f2, paths2audio_files = [f1; f2] -> batch_size = 4%Z ->
       per_batch = [List.concat per_batch] /\
       transcribe_batch (inference_state st) false [f1; f2]
         = Ok (List.concat per_batch)).
Proof.
  intros Hne Hbs Hds Hdec.
  destruct (decoded_batches _ _ Hdec) as [per_batch Hper].
  exists per_batch.
  assert (Hcat : List.concat (batches_of paths2audio_files batch_size)
                 = paths2audio_files)
    by (unfold batches_of; apply concat_batch_sampler).
  split; [exact Hcat|]. split; [exact Hper|].
  split.
  { destruct paths2audio_files as [|p ps]; [congruence|].
    rewrite transcribe_outcome by reflexivity.
    rewrite setup_dataloader_ok by (congruence || assumption).
    cbn [bind].
    erewrite transcribe_loop_ok.
    - reflexivity.
    - eapply Forall2_impl; [|exact Hper]. simpl. tauto. }
  split.
  { transitivity
      (List.length (List.concat (batches_of paths2audio_files batch_size)));
      [|now rewrite Hcat].
    apply (length_concat_Forall2
             (fun b ts => transcribe_batch (inference_state st) false b = Ok ts)).
    exact Hper. }
  split.
  { apply Forall_forall. intros t Ht. apply in_concat in Ht.
    destruct Ht as [ts [Hts Ht]].
    destruct (Forall2_In_r _ _ _ _ Hper Hts) as [b [_ [Hb _]]].
    destruct (transcribe_batch_texts _ _ _ Hb) as [hyps ->].
    apply in_map_iff in Ht. destruct Ht as [ids [<- _]]. exists ids. reflexivity. }
  intros f1 f2 -> ->. cbv in Hper.
  inversion Hper as [|b ts bs tss [Hb Hl] Hrest]; subst.
  inversion Hrest; subst. simpl. rewrite app_nil_r. split; [reflexivity|exact Hb].
Qed.

End Orchestrator.

End TranscribeFacts.

(** ** Facts about whitespace trimming *)

Module PyStrFacts.
Import PyStr PyStrSpec.

Lemma rstrip_empty s : rstrip s = EmptyString <-> all_space s = true.
Proof.
  induction s as [|c r IH]; simpl; [tauto|].
  destruct (rstrip r) eqn:Er.
  - destruct (isspace c); simpl.
    + split; intros _; [apply IH|]; reflexivity.
    + split; discriminate.
  - split; [discriminate|].
    intros H. apply andb_true_iff in H. destruct H as [_ H].
    apply IH in H. discriminate.
Qed.

Lemma lstrip_all_space s :
  all_space (lstrip s) = true <-> all_space s = true.
Proof.
  induction s as [|c r IH]; simpl; [tauto|].
  destruct (isspace c) eqn:Ec; simpl.
  - exact IH.
  - rewrite Ec. simpl. tauto.
Qed.

(** A string trims to the empty string exactly when it consists of
    whitespace only. *)
Lemma strip_empty s : strip s = EmptyString <-> all_space s = true.
Proof. unfold strip. rewrite rstrip_empty. apply lstrip_all_space. Qed.

Lemma nonempty_false s : nonempty s = false <-> s = EmptyString.
Proof. destruct s; simpl; split; congruence. Qed.

Lemma nonempty_strip s :
  nonempty (strip s) = true <-> all_space s = false.
Proof.
  destruct (nonempty (strip s)) eqn:E.
  - split; [intros _|reflexivity].
    destruct (all_space s) eqn:Ea; [|reflexivity].
    apply strip_empty in Ea. rewrite Ea in E. discriminate.
  - apply nonempty_false, strip_empty in E. rewrite E. split; discriminate.
Qed.

Lemma flush_nonempty cur : cur <> EmptyString -> flush cur <> [].
Proof. destruct cur; [congruence|discriminate]. Qed.

Lemma split_aux_pending cur s : cur <> EmptyString -> split_aux cur s <> [].
Proof.
  revert cur. induction s as [|c r IH]; intros cur Hcur; simpl.
  - apply flush_nonempty. exact Hcur.
  - destruct (isspace c).
    + intros H. apply app_eq_nil in H. destruct H as [H _].
      revert H. apply flush_nonempty. exact Hcur.
    + apply IH. discriminate.
Qed.

Lemma split_aux_nonblank cur s : all_space s = false -> split_aux cur s <> [].
Proof.
  revert cur. induction s as [|c r IH]; intros cur; simpl; [discriminate|].
  destruct (isspace c); simpl.
  - intros Hr H. apply app_eq_nil in H. destruct H as [_ H].
    revert H. apply IH. exact Hr.
  - intros _. apply split_aux_pending. discriminate.
Qed.

(** A text that does not trim to the empty string has at least one word. *)
Lemma split_of_kept s :
  nonempty (strip s) = true -> (0 < List.length (split s))%nat.
Proof.
  intros H. apply nonempty_strip in H.
  pose proof (split_aux_nonblank EmptyString s H) as Hne.
  unfold split. destruct (split_aux EmptyString s); [congruence|simpl; lia].
Qed.

End PyStrFacts.

(** ** Facts about the epoch-end aggregation *)

Module EpochEndFacts.
Import EpochEnd EpochEndSpec.

Section Aggregation.

Context {loss : Type} {scorers : Scorers loss}.

Lemma wer_loop_totals pairs : forall wer_scores wer_words,
  wer_loop pairs wer_scores wer_words
  = ((wer_scores + total_distance pairs)%Z, (wer_words + total_words pairs)%Z).
Proof.
  induction pairs as [|[h r] rest IH]; intros s w; simpl.
  - unfold total_distance, total_words. simpl. f_equal; lia.
  - rewrite IH. unfold total_distance, total_words. simpl. f_equal; lia.
Qed.

Lemma combine_fst_snd {A B} (l : list (A * B)) :
  combine (map fst l) (map snd l) = l.
Proof. induction l as [|[a b] l IH]; simpl; [reflexivity|]. now rewrite IH. Qed.

Lemma collect_gathered tr_and_gt (f : nat -> list (string * string)) ranks :
  forall ts gs,
  (forall r, In r ranks -> nth_error tr_and_gt r = Some (Some (f r))) ->
  collect tr_and_gt ranks ts gs
  = Ok (ts ++ map fst (List.concat (map f ranks)),
        gs ++ map snd (List.concat (map f ranks))).
Proof.
  induction ranks as [|r rest IH]; intros ts gs H; simpl.
  - now rewrite !app_nil_r.
  - rewrite (H r) by (left; reflexivity).
    rewrite IH by (intros r' Hr'; apply H; right; exact Hr').
    rewrite !map_app, !app_assoc. reflexivity.
Qed.

Lemma gather_ok world_size global_rank
    (output_of : nat -> list (Model.output_dict loss)) :
  (1 <= world_size)%nat ->
  gather world_size global_rank output_of
  = Ok (map (fun r => Some (seen_by world_size global_rank output_of r))
            (seq 0 world_size)).
Proof.
  intros Hws. unfold gather, seen_by.
  destruct (1 <? world_size)%nat eqn:E.
  - unfold all_gather_object. now rewrite repeat_length.
  - apply Nat.ltb_ge in E. assert (world_size = 1%nat) as -> by lia.
    reflexivity.
Qed.

Lemma nth_error_map_seq {A} (f : nat -> A) n r :
  (r < n)%nat -> nth_error (map f (seq 0 n)) r = Some (f r).
Proof.
  intros Hr. rewrite nth_error_map.
  rewrite (nth_error_nth' _ 0%nat) by (rewrite length_seq; exact Hr).
  rewrite seq_nth by exact Hr. reflexivity.
Qed.

(** On worker 0 the gathered slots are the workers' own kept pairs. *)
Lemma seen_by_rank_0 world_size
    (output_of : nat -> list (Model.output_dict loss)) r :
  (1 <= world_size)%nat -> (r < world_size)%nat ->
  seen_by world_size 0 output_of r = kept_pairs (output_of r).
Proof.
  intros Hws Hr. unfold seen_by.
  destruct (1 <? world_size)%nat eqn:E; [reflexivity|].
  apply Nat.ltb_ge in E. replace r with 0%nat by lia. reflexivity.
Qed.

Lemma scores_rank_0 world_size
    (output_of : nat -> list (Model.output_dict loss)) :
  (1 <= world_size)%nat ->
  scores world_size 0
    (map (fun r => Some (seen_by world_size 0 output_of r)) (seq 0 world_size))
  = (let pairs := all_pairs world_size output_of in
     let? wer_score :=
       true_div (1 * inject_Z (total_distance pairs)
                 * inject_Z (Z.of_nat world_size))%Q (total_words pairs) in
     Ok ((corpus_bleu (map fst pairs) [map snd pairs]
          * inject_Z (Z.of_nat world_size))%Q, wer_score)).
Proof.
  intros Hws. unfold scores. cbn [Nat.eqb].
  rewrite (collect_gathered _ (fun r => kept_pairs (output_of r))).
  - cbn [bind app]. fold (all_pairs world_size output_of).
    rewrite combine_fst_snd, wer_loop_totals. reflexivity.
  - intros r Hr. apply in_seq in Hr.
    rewrite nth_error_map_seq by lia.
    rewrite seen_by_rank_0 by lia. reflexivity.
Qed.

Lemma kept_pairs_have_words (output : list (Model.output_dict loss)) :
  Forall (fun hr => (0 < List.length (PyStr.split (snd hr)))%nat)
         (kept_pairs output).
Proof.
  apply Forall_forall. intros [t g] Hin. unfold kept_pairs in Hin.
  apply filter_In in Hin. destruct Hin as [_ Hkeep].
  apply PyStrFacts.split_of_kept. exact Hkeep.
Qed.

Lemma all_pairs_have_words world_size
    (output_of : nat -> list (Model.output_dict loss)) :
  Forall (fun hr => (0 < List.length (PyStr.split (snd hr)))%nat)
         (all_pairs world_size output_of).
Proof.
  unfold all_pairs. apply Forall_concat. apply Forall_forall.
  intros pairs Hin. apply in_map_iff in Hin. destruct Hin as [r [<- _]].
  apply kept_pairs_have_words.
Qed.

Lemma total_words_nonneg pairs : (0 <= total_words pairs)%Z.
Proof.
  induction pairs as [|hr rest IH]; unfold total_words in *; simpl; lia.
Qed.

(** As long as one pair is left, the divisor of the WER is positive. *)
Lemma total_words_pos pairs :
  Forall (fun hr => (0 < List.length (PyStr.split (snd hr)))%nat) pairs ->
  pairs <> [] -> (0 < total_words pairs)%Z.
Proof.
  intros Hall Hne. destruct pairs as [|hr rest]; [congruence|].
  inversion Hall as [|? ? Hhr _]; subst.
  pose proof (total_words_nonneg rest) as Hrest.
  unfold total_words in *. simpl. lia.
Qed.

Lemma gather_ext world_size global_rank
    (output_of output_of' : nat -> list (Model.output_dict loss)) :
  (forall r, kept_pairs (output_of' r) = kept_pairs (output_of r)) ->
  gather world_size global_rank output_of'
  = gather world_size global_rank output_of.
Proof.
  intros H. unfold gather.
  destruct (1 <? world_size)%nat.
  - unfold all_gather_object. f_equal. apply map_ext. intros r. now rewrite H.
  - now rewrite H.
Qed.

(** C1: at epoch end, worker 0 concatenates the pairs of all workers in
    rank order and reports the corpus BLEU of that list times the worker
    count, and as WER the total edit distance over whitespace-separated
    words divided by the total number of reference words, times the worker
    count; every other worker reports exactly zero for both. *)
Theorem corpus_metrics_on_coordinator
    (world_size global_rank k : nat)
    (output_of : nat -> list (Model.output_dict loss)) :
  (1 <= world_size)%nat ->
  let pairs := all_pairs world_size output_of in
  let workers := inject_Z (Z.of_nat world_size) in
  (global_rank = 0%nat -> pairs <> [] ->
   exists entry,
     epoch_end_pass world_size global_rank k output_of = Ok entry /\
     (logged_sacreBLEU entry
      == corpus_bleu (map fst pairs) [map snd pairs] * workers)%Q /\
     (logged_WER entry
      == inject_Z (total_distance pairs) / inject_Z (total_words pairs)
         * workers)%Q /\
     (0 < total_words pairs)%Z) /\
  (global_rank <> 0%nat ->
   exists entry,
     epoch_end_pass world_size global_rank k output_of = Ok entry /\
     logged_sacreBLEU entry = 0%Q /\
     logged_WER entry = 0%Q).
Proof.
  intros Hws pairs workers. split.
  - intros -> Hpairs.
    assert (Hwords : (0 < total_words pairs)%Z)
      by (apply total_words_pos; [apply all_pairs_have_words|exact Hpairs]).
    unfold epoch_end_pass.
    rewrite gather_ok by exact Hws. cbn [bind].
    rewrite scores_rank_0 by exact Hws. fold pairs. cbv zeta.
    unfold true_div.
    destruct (total_words pairs =? 0)%Z eqn:E; [apply Z.eqb_eq in E; lia|].
    cbn [bind]. eexists. split; [reflexivity|].
    cbn [logged_sacreBLEU logged_WER]. split; [reflexivity|].
    split; [|exact Hwords].
    fold workers. field.
    intros Hq. unfold Qeq in Hq. simpl in Hq. lia.
  - intros Hrank. unfold epoch_end_pass.
    rewrite gather_ok by exact Hws. cbn [bind]. unfold scores.
    destruct (global_rank =? 0)%nat eqn:E; [apply Nat.eqb_eq in E; tauto|].
    cbn [bind]. eexists. repeat split.
Qed.

(** With no pair left on worker 0 the division fails. *)
Lemma no_pairs_left world_size k
    (output_of : nat -> list (Model.output_dict loss)) :
  (1 <= world_size)%nat ->
  all_pairs world_size output_of = [] ->
  epoch_end_pass world_size 0 k output_of = Raise ZeroDivisionError.
Proof.
  intros Hws Hpairs. unfold epoch_end_pass.
  rewrite gather_ok by exact Hws. cbn [bind].
  rewrite scores_rank_0 by exact Hws. cbv zeta.
  rewrite Hpairs. reflexivity.
Qed.

(** The usual call, with a non-empty list of step mappings on this worker
    and on its peers: one pass, one entry logged. *)
Lemma epoch_end_flat world_size global_rank
    (outputs_of : nat -> step_outputs) o os :
  outputs_of global_rank = FlatOutputs (o :: os) ->
  multi_validation_epoch_end world_size global_rank outputs_of
  = (let? entry :=
       epoch_end_pass world_size global_rank 0
         (fun r => if (r =? global_rank)%nat then o :: os
                   else nth 0 (wrap (outputs_of r)) []) in
     Ok [entry]).
Proof.
  intros H. unfold multi_validation_epoch_end. rewrite H. simpl.
  destruct (epoch_end_pass _ _ _ _); reflexivity.
Qed.

(** Without step outputs the hook returns at once and logs nothing. *)
Lemma epoch_end_without_outputs world_size global_rank
    (outputs_of : nat -> step_outputs) :
  is_empty (outputs_of global_rank) = true ->
  multi_validation_epoch_end world_size global_rank outputs_of = Ok [].
Proof. intros H. unfold multi_validation_epoch_end. now rewrite H. Qed.

(** Dividing the reported WER by the worker count gives the plain ratio
    of edit distance to reference words. *)
Lemma wer_descaled (distance words : Z) (world_size : nat) :
  (1 <= world_size)%nat -> words <> 0%Z ->
  (1 * inject_Z distance * inject_Z (Z.of_nat world_size) / inject_Z words
   / inject_Z (Z.of_nat world_size)
   == inject_Z distance / inject_Z words)%Q.
Proof.
  intros Hws Hwords. field. split.
  - intros Hq. unfold Qeq in Hq. simpl in Hq. lia.
  - intros Hq. unfold Qeq in Hq. simpl in Hq. lia.
Qed.

(** Identical hypothesis and reference texts have distance zero as soon
    as the edit distance of a word list to itself is zero. *)
Lemma total_distance_same (preds : list string) :
  (forall ws, editdistance_eval ws ws = 0%Z) ->
  total_distance (map (fun p => (p, p)) preds) = 0%Z.
Proof.
  intros Hd. induction preds as [|p rest IH]; [reflexivity|].
  unfold total_distance in *. simpl. rewrite Hd, IH. reflexivity.
Qed.

(** C2: the pairs a worker contributes, in the distributed branch and in
    the single-worker branch alike, are the (translation, ground truth)
    pairs of its step outputs whose ground truth does not trim to the
    empty string, in their original order; the metrics are a function of
    these kept pairs only; in the scenario of the three pairs only
    ("hello there", "hello world") remains. *)
Theorem empty_ground_truth_pairs_dropped
    (world_size global_rank k : nat)
    (output_of : nat -> list (Model.output_dict loss)) :
  (1 <= world_size)%nat ->
  (exists tr_and_gt,
     gather world_size global_rank output_of = Ok tr_and_gt /\
     List.length tr_and_gt = world_size /\
     forall r, (r < world_size)%nat ->
       exists pairs,
         nth_error tr_and_gt r = Some (Some pairs) /\
         let output :=
           if (1 <? world_size)%nat then output_of r
           else output_of global_rank in
         let zipped :=
           combine (List.concat (map Model.translations output))
                   (List.concat (map Model.ground_truths output)) in
         pairs = filter (fun tg => negb (String.eqb (PyStr.strip (snd tg)) ""))
                        zipped /\
         forall t g, In (t, g) pairs <->
                     In (t, g) zipped /\ PyStr.strip g <> "") /\
  (forall output_of',
     (forall r, kept_pairs (output_of' r) = kept_pairs (output_of r)) ->
     epoch_end_pass world_size global_rank k output_of'
     = epoch_end_pass world_size global_rank k output_of) /\
  (forall l : loss,
     kept_pairs (scenario_output l) = [("hello there", "hello world")] /\
     gather 1 0 (fun _ => scenario_output l)
       = Ok [Some [("hello there", "hello world")]] /\
     gather 2 global_rank (fun _ => scenario_output l)
       = Ok [Some [("hello there", "hello world")];
             Some [("hello there", "hello world")]]).
Proof.
  intros Hws. split; [|split].
  - exists (map (fun r => Some (seen_by world_size global_rank output_of r))
                 (seq 0 world_size)).
    split; [apply gather_ok; exact Hws|].
    split; [now rewrite length_map, length_seq|].
    intros r Hr. exists (seen_by world_size global_rank output_of r).
    split;
      [apply (nth_error_map_seq
                (fun r => Some (seen_by world_size global_rank output_of r)));
       exact Hr|].
    cbv zeta. unfold seen_by.
    assert (Hfilter : forall output : list (Model.output_dict loss),
      kept_pairs output
      = filter (fun tg => negb (String.eqb (PyStr.strip (snd tg)) ""))
          (combine (List.concat (map Model.translations output))
                   (List.concat (map Model.ground_truths output)))).
    { intros output. unfold kept_pairs. apply filter_ext. intros [t g]. simpl.
      destruct (PyStr.strip g); reflexivity. }
    assert (Hin : forall (output : list (Model.output_dict loss)) t g,
      In (t, g) (kept_pairs output) <->
      In (t, g) (combine (List.concat (map Model.translations output))
                         (List.concat (map Model.ground_truths output)))
      /\ PyStr.strip g <> "").
    { intros output t g. unfold kept_pairs. rewrite filter_In. simpl.
      destruct (PyStr.strip g); simpl; intuition congruence. }
    destruct (1 <? world_size)%nat; split; auto.
  - intros output_of' H. unfold epoch_end_pass.
    now rewrite (gather_ext _ _ _ _ H).
  - intros l. repeat split.
Qed.

End Aggregation.

End EpochEndFacts.

(** ** The theorems on concrete calls *)

Module Scenarios.
Import Model EpochEnd EpochEndSpec.

(** *** Aggregation *)

(** Worker 0 of two reports BLEU 50 * 2 and WER (1 + 1) / (2 + 2) * 2;
    worker 1 reports zeros. *)
Lemma corpus_metrics_on_coordinator_witness :
  (exists entry,
     epoch_end_pass (scorers := EpochEndSpec.demo_scorers) 2 0 0 two_workers
       = Ok entry /\
     (logged_sacreBLEU entry == 100 # 1)%Q /\
     (logged_WER entry == 1 # 1)%Q) /\
  (exists entry,
     epoch_end_pass (scorers := EpochEndSpec.demo_scorers) 2 1 0 two_workers
       = Ok entry /\
     logged_sacreBLEU entry = 0%Q /\
     logged_WER entry = 0%Q).
Proof.
  split.
  - destruct (EpochEndFacts.corpus_metrics_on_coordinator
                (scorers := EpochEndSpec.demo_scorers) 2 0 0 two_workers)
      as [H _]; [lia|].
    destruct (H eq_refl) as [entry [He [Hb [Hw _]]]];
      [vm_compute; discriminate|].
    exists entry. split; [exact He|]. split.
    + rewrite Hb. vm_compute. reflexivity.
    + rewrite Hw. vm_compute. reflexivity.
  - destruct (EpochEndFacts.corpus_metrics_on_coordinator
                (scorers := EpochEndSpec.demo_scorers) 2 1 0 two_workers)
      as [_ H]; [lia|].
    apply H. discriminate.
Defined.

(** In the scenario each of two workers contributes the one pair with a
    ground truth, and nothing else reaches the metrics. *)
Lemma empty_ground_truth_pairs_dropped_witness :
  gather 2 0 (fun _ => EpochEndSpec.scenario_output 0%Z)
    = Ok [Some [("hello there", "hello world")];
          Some [("hello there", "hello world")]] /\
  gather 1 0 (fun _ => EpochEndSpec.scenario_output 0%Z)
    = Ok [Some [("hello there", "hello world")]] /\
  epoch_end_pass (scorers := EpochEndSpec.demo_scorers) 2 0 0
    (fun _ => [ {| Model.step_loss := 0%Z;
                   Model.translations := ["hello there"];
                   Model.ground_truths := ["hello world"] |} ])
  = epoch_end_pass (scorers := EpochEndSpec.demo_scorers) 2 0 0
      (fun _ => EpochEndSpec.scenario_output 0%Z).
Proof.
  destruct (EpochEndFacts.empty_ground_truth_pairs_dropped
              (scorers := EpochEndSpec.demo_scorers) 2 0 0
              (fun _ => EpochEndSpec.scenario_output 0%Z))
    as [_ [Hmetrics Hscenario]]; [lia|].
  destruct (Hscenario 0%Z) as [_ [H1 H2]].
  split; [exact H2|]. split; [exact H1|].
  apply Hmetrics. intros r. reflexivity.
Defined.

(** *** [forward] and [transcribe] *)

(** Neither signal pair given to [forward]; both flags given to
    [transcribe] with one file. *)
Lemma mutually_exclusive_arguments_witness :
  forward (C := Demo.collaborators) Demo.eval_unfrozen
    None None None None None None = ([], Raise ValueError) /\
  forward (C := Demo.collaborators) Demo.eval_unfrozen
    (Some [5%Z]) (Some [1%Z]) (Some [5%Z]) (Some [1%Z]) None None
    = ([], Raise ValueError) /\
  transcribe (C := Demo.collaborators) (Some ["a.wav"]) 4 true true
    Demo.eval_unfrozen = (Demo.eval_unfrozen, Raise ValueError).
Proof.
  destruct (TranscribeFacts.mutually_exclusive_arguments
              (C := Demo.collaborators) Demo.eval_unfrozen) as [Hf Ht].
  split; [apply Hf; reflexivity|].
  split; [apply Hf; reflexivity|].
  apply Ht. discriminate.
Defined.

(** Three files in batches of one, the second file unreadable, on a model
    in training mode with a frozen encoder. *)
Lemma transcribe_cleanup_witness :
  let call :=
    transcribe (C := Demo.collaborators)
      (Some ["a.wav"; "missing.wav"; "c.wav"]) 1 false false
      Demo.train_frozen_encoder in
  training (fst call) = true /\
  dither (fst call) = (1 # 100000)%Q /\
  pad_to (fst call) = 16%Z /\
  encoder_frozen (fst call) = false /\
  transf_decoder_frozen (fst call) = false /\
  snd call = Raise (ExternalError 2).
Proof.
  cbv zeta.
  destruct (TranscribeFacts.transcribe_cleanup (C := Demo.collaborators)
              ["a.wav"; "missing.wav"; "c.wav"] 1 false false
              Demo.train_frozen_encoder)
    as [Ht [Hd [Hp [_ [He [Hf Hexc]]]]]]; [discriminate|].
  split; [exact Ht|]. split; [exact Hd|]. split; [exact Hp|].
  split; [exact He|]. split; [exact Hf|].
  apply (Hexc [["a.wav"]] ["missing.wav"] [["c.wav"]]).
  - reflexivity.
  - lia.
  - reflexivity.
  - reflexivity.
  - constructor; [eexists; reflexivity|constructor].
  - reflexivity.
Defined.

(** One file, on a model in evaluation mode whose encoder and decoder were
    trainable: the call succeeds and leaves both frozen; and on a model in
    training mode with a frozen encoder it leaves the encoder unfrozen.
    "The freeze state is restored on every exit path" does not hold. *)
Lemma freeze_state_not_restored :
  (let st' := fst (transcribe (C := Demo.collaborators) (Some ["a.wav"]) 4
                     false false Demo.eval_unfrozen) in
   encoder_frozen Demo.eval_unfrozen = false /\
   encoder_frozen st' = true /\
   transf_decoder_frozen Demo.eval_unfrozen = false /\
   transf_decoder_frozen st' = true) /\
  (let st' := fst (transcribe (C := Demo.collaborators) (Some ["a.wav"]) 4
                     false false Demo.train_frozen_encoder) in
   encoder_frozen Demo.train_frozen_encoder = true /\
   encoder_frozen st' = false) /\
  ~ (forall (C : Collaborators) (paths2audio_files : list string)
       (batch_size : Z) (logprobs return_hypotheses : bool)
       (st : model_state),
       paths2audio_files <> [] ->
       let st' := fst (transcribe (Some paths2audio_files) batch_size
                         logprobs return_hypotheses st) in
       training st' = training st /\
       encoder_frozen st' = encoder_frozen st /\
       transf_decoder_frozen st' = transf_decoder_frozen st /\
       dither st' = dither st /\
       pad_to st' = pad_to st).
Proof.
  split; [repeat split|]. split; [repeat split|].
  intros H.
  specialize (H Demo.collaborators ["a.wav"] 4%Z false false
                Demo.eval_unfrozen ltac:(discriminate)).
  destruct H as [_ [H _]]. discriminate H.
Qed.

(** Two files and batch size 4: one batch, two texts, in order. *)
Lemma transcribe_one_text_per_file_witness :
  snd (transcribe (C := Demo.collaborators) (Some ["a.wav"; "b.wav"]) 4
         false false Demo.eval_unfrozen)
  = Ok (Hypotheses ["hello world <pad>"; "hello world <pad>"]).
Proof.
  destruct (TranscribeFacts.transcribe_one_text_per_file
              (C := Demo.collaborators) ["a.wav"; "b.wav"] 4
              Demo.eval_unfrozen)
    as [per_batch [_ [_ [Hcall [_ [_ Hscenario]]]]]].
  - discriminate.
  - lia.
  - reflexivity.
  - constructor; [|constructor].
    exists ["hello world <pad>"; "hello world <pad>"]. split; reflexivity.
  - destruct (Hscenario "a.wav" "b.wav" eq_refl eq_refl) as [_ Hb].
    rewrite Hcall. injection Hb as <-. reflexivity.
Defined.

(** Two files, batch size 4, both flags false, with a tokenizer that
    renders the padding id as [<pad>]: the two texts returned match the
    special-token pattern.  "Each returned string has no substring
    matching the pattern" does not hold. *)
Lemma transcribe_keeps_special_tokens :
  (snd (transcribe (C := Demo.collaborators) (Some ["a.wav"; "b.wav"]) 4
          false false Demo.eval_unfrozen)
   = Ok (Hypotheses ["hello world <pad>"; "hello world <pad>"]) /\
   SpecialTokens.has_special_token "hello world <pad>" = true /\
   SpecialTokens._strip_special_tokens "hello world <pad>" = "hello world ") /\
  ~ (forall (C : Collaborators) (f1 f2 : string) (st : model_state)
       (texts : list string),
       snd (transcribe (Some [f1; f2]) 4 false false st)
       = Ok (Hypotheses texts) ->
       List.length texts = 2%nat /\
       Forall (fun t => SpecialTokens.has_special_token t = false) texts).
Proof.
  split; [repeat split|].
  intros H.
  destruct (H Demo.collaborators "a.wav" "b.wav" Demo.eval_unfrozen
              ["hello world <pad>"; "hello world <pad>"] eq_refl)
    as [_ Hclean].
  inversion Hclean as [|t ts Ht _]; subst. discriminate Ht.
Qed.

(** No file at all: the empty dict and an untouched model. *)
Lemma transcribe_without_files_witness :
  transcribe (C := Demo.collaborators) None 4 true true
    Demo.train_frozen_encoder
  = (Demo.train_frozen_encoder, Ok EmptyDict) /\
  translate (C := Demo.collaborators) (Some []) 4 false false
    Demo.eval_unfrozen
  = (Demo.eval_unfrozen, Ok EmptyDict).
Proof.
  split.
  - apply (TranscribeFacts.transcribe_without_files
             (C := Demo.collaborators) 4 true true Demo.train_frozen_encoder).
  - apply (TranscribeFacts.transcribe_without_files
             (C := Demo.collaborators) 4 false false Demo.eval_unfrozen).
Defined.

(** *** Shift and vocabulary *)

(** A transcript row of five tokens: four inputs, four labels, and the
    label at position 2 is the transcript token at position 3; a loss that
    adds up its labels gives 7 + 8 + 9 + 2 for the training loss and for
    the loss of the validation step. *)
Lemma labels_are_transcript_shifted_by_one_witness :
  (exists inputs labels,
     nth_error (input_ids_of [[1; 7; 8; 9; 2]]%Z) 0 = Some inputs /\
     nth_error (labels_of [[1; 7; 8; 9; 2]]%Z) 0 = Some labels /\
     List.length inputs = 4%nat /\
     List.length labels = 4%nat /\
     nth_error inputs 2 = Some 8%Z /\
     nth_error labels 2 = Some 9%Z) /\
  compute_audio_loss (C := Demo.label_sum_loss) Demo.eval_unfrozen
    (Some ([0%Z], [1%Z], [[1; 7; 8; 9; 2]]%Z, [5%Z])) = Ok 26%Z /\
  (exists out,
     validation_step (C := Demo.label_sum_loss) Demo.eval_unfrozen false
       ([0%Z], [1%Z], [[1; 7; 8; 9; 2]]%Z, [5%Z]) = Ok out /\
     step_loss out = 26%Z).
Proof.
  destruct (ShiftFacts.labels_are_transcript_shifted_by_one
              (C := Demo.label_sum_loss) Demo.eval_unfrozen
              [0%Z] [1%Z] [[1; 7; 8; 9; 2]]%Z [5%Z])
    as [[_ [_ Hrows]] [Htraining Hvalidation]].
  split; [|split].
  - destruct (Hrows 0%nat [1; 7; 8; 9; 2]%Z eq_refl)
      as [inputs [labels [Hi [Hl [Hli [Hll Hpos]]]]]].
    exists inputs, labels.
    destruct (Hpos 2%nat) as [Hin Hlab]; [simpl; lia|].
    repeat split; assumption.
  - etransitivity; [exact Htraining|reflexivity].
  - eexists. split; [reflexivity|].
    destruct (Hvalidation false _ eq_refl)
      as [log_probs [encoded_len [enc_states [enc_mask [_ Hloss]]]]].
    reflexivity.
Defined.

(** A tokenizer of 32001 entries gets a decoder vocabulary of 32008, and
    no multiple of 8 in between would do. *)
Lemma vocab_size_next_multiple_of_8_witness :
  (32001 <= vocab_size 32001)%Z /\ (vocab_size 32001 <= 32008)%Z.
Proof.
  destruct (VocabFacts.vocab_size_next_multiple_of_8 32001)
    as [_ [_ [_ [Hge Hleast]]]].
  split; [exact Hge|].
  apply (Hleast 32008%Z 4001%Z); [reflexivity|lia].
Defined.

(** *** Further runs *)

Example validation_step_strips :
  validation_step (C := Demo.collaborators) Demo.eval_unfrozen false
    ([5], [1], [[1; 2; 0]], [3])%Z
  = Ok {| Model.step_loss := 0%Z;
          Model.translations := ["hello world "];
          Model.ground_truths := ["hello world "] |}.
Proof. reflexivity. Qed.

Example epoch_end_on_worker_1 :
  multi_validation_epoch_end (scorers := EpochEndSpec.demo_scorers) 2 1
    (fun r => FlatOutputs (two_workers r))
  = Ok [{| logged_loss := 0%Z; logged_sacreBLEU := 0%Q; logged_WER := 0%Q |}].
Proof. reflexivity. Qed.

Example epoch_end_blank_references :
  multi_validation_epoch_end (scorers := EpochEndSpec.demo_scorers) 1 0
    (fun _ => FlatOutputs [ {| Model.step_loss := 0%Z;
                               Model.translations := ["x"];
                               Model.ground_truths := [" "] |} ])
  = Raise ZeroDivisionError.
Proof. reflexivity. Qed.

Example strip_special_tokens_runs :
  map SpecialTokens._strip_special_tokens
    ["<>"; "<a>"; "a<b"; "<<>>"; "<a><b>c"; "x<y>z<"]
  = ["<>"; ""; "a<b"; ">"; "c"; "xz<"].
Proof. reflexivity. Qed.

End Scenarios.

(** ** More on [_strip_special_tokens] *)

Module StripMore.
Import SpecialTokens SpecialTokensFacts.

Lemma has_special_token_cons c r :
  has_special_token (String c r) =
  match match_here (String c r) with
  | Some _ => true
  | None => has_special_token r
  end.
Proof. reflexivity. Qed.

Lemma strip_fixed_of_clean s :
  has_special_token s = false -> _strip_special_tokens s = s.
Proof.
  induction s as [|c r IH]; [reflexivity|].
  rewrite has_special_token_cons, strip_cons.
  destruct (match_here (String c r)); [discriminate|].
  intros H. now rewrite (IH H).
Qed.

(** A match of the pattern has at least three characters. *)
Lemma match_here_three s rest :
  match_here s = Some rest -> (String.length rest + 3 <= String.length s)%nat.
Proof.
  destruct s as [|c [|d s]]; simpl; try discriminate.
  destruct (is_lt c && negb (is_gt d)); [|discriminate].
  intros H. apply after_gt_shorter in H. lia.
Qed.

Lemma strip_length_bounded n :
  forall s, (String.length s < n)%nat ->
  (String.length (_strip_special_tokens s) <= String.length s)%nat /\
  (has_special_token s = true ->
   String.length (_strip_special_tokens s) + 3 <= String.length s)%nat.
Proof.
  induction n as [|n IH]; intros s Hlen; [lia|].
  destruct s as [|c r]; [rewrite strip_nil; split; [simpl; lia|discriminate]|].
  rewrite strip_cons, has_special_token_cons.
  destruct (match_here (String c r)) as [rest|] eqn:Hm.
  - pose proof (match_here_three _ _ Hm) as H3.
    assert (Hrest : (String.length rest < n)%nat) by lia.
    destruct (IH rest Hrest) as [Hle _]. split; [lia|intros _; lia].
  - simpl in Hlen.
    assert (Hr : (String.length r < n)%nat) by lia.
    destruct (IH r Hr) as [Hle Hlt].
    simpl. split; [lia|]. intros H. specialize (Hlt H). lia.
Qed.

(** X1: whatever the text, the result of [_strip_special_tokens] holds no
    substring that matches [<[^>]+>]: one pass is enough, the removal of
    a token never leaves a new one behind. *)
Theorem stripped_text_has_no_special_token (text : string) :
  has_special_token (_strip_special_tokens text) = false.
Proof. apply strip_has_no_special_token. Qed.

(** X2: [_strip_special_tokens] returns its argument unchanged exactly
    when the argument holds no substring matching the pattern; so a lone
    [<], a lone [>] and the empty brackets [<>] are kept. *)
Theorem strip_unchanged_iff_no_special_token (text : string) :
  _strip_special_tokens text = text <-> has_special_token text = false.
Proof.
  split.
  - intros H. rewrite <- H. apply strip_has_no_special_token.
  - apply strip_fixed_of_clean.
Qed.

(** X3: stripping never lengthens a text, and a text that holds a special
    token loses at least three characters (the two brackets and one
    character between them). *)
Theorem strip_shortens (text : string) :
  (String.length (_strip_special_tokens text) <= String.length text)%nat /\
  (has_special_token text = true ->
   String.length (_strip_special_tokens text) + 3 <= String.length text)%nat.
Proof. apply (strip_length_bounded (S (String.length text))). lia. Qed.

End StripMore.

(** ** More on the vocabulary size and the mask *)

Module SizesMore.
Import Torch MaskSpec MaskFacts VocabFacts.

(** X4: the padding that [__init__] adds to the tokenizer's vocabulary is
    between 0 and 7 entries; a size that is already a multiple of 8 is
    kept, so padding twice changes nothing, and a larger tokenizer never
    gets a smaller decoder vocabulary. *)
Theorem vocab_padding_at_most_7 (v w : Z) :
  (0 <= vocab_size v - v <= 7)%Z /\
  ((exists k, v = 8 * k)%Z -> vocab_size v = v) /\
  vocab_size (vocab_size v) = vocab_size v /\
  ((v <= w)%Z -> (vocab_size v <= vocab_size w)%Z).
Proof.
  rewrite !vocab_size_eq.
  pose proof (Z.div_mod (- v) 8 ltac:(lia)) as Hv.
  pose proof (Z.mod_pos_bound (- v) 8 ltac:(lia)) as Hvm.
  split; [lia|]. split; [|split].
  - intros [k ->]. replace (- (8 * k))%Z with ((- k) * 8)%Z by lia.
    rewrite Z.div_mul by lia. lia.
  - replace (- (8 * - (- v / 8)))%Z with ((- v / 8) * 8)%Z by lia.
    rewrite Z.div_mul by lia. lia.
  - intros Hvw.
    assert (- w / 8 <= - v / 8)%Z by (apply Z.div_le_mono; lia). lia.
Qed.

(** X5: every row of the mask is a run of [true] followed by a run of
    [false]: row [i] has [min(max(lens[i], 0), max_length)] leading true
    entries and nothing but false after them; a negative length gives an
    all-false row. *)
Theorem mask_rows_are_prefixes (lens : list Z) (max_length : Z) :
  (0 <= max_length)%Z ->
  exists mask,
    lens_to_mask lens max_length = Ok mask /\
    forall i l, nth_error lens i = Some l ->
      let k := Z.to_nat (Z.min (Z.max l 0) max_length) in
      nth_error mask i
      = Some (List.repeat true k
              ++ List.repeat false (Z.to_nat max_length - k)).
Proof.
  intros HT. exists (map (row_of (Z.to_nat max_length)) lens).
  split; [apply lens_to_mask_rows; exact HT|].
  intros i l Hi. cbv zeta. rewrite nth_error_map, Hi. simpl. f_equal.
  replace (Z.to_nat (Z.min (Z.max l 0) max_length))
    with (Nat.min (Z.to_nat l) (Z.to_nat max_length)) by lia.
  generalize (Z.to_nat max_length) as n. clear HT Hi. intros n.
  induction n as [|n IH]; [now rewrite Nat.min_0_r|].
  rewrite row_of_S, IH.
  destruct (Z.of_nat n <? l)%Z eqn:E.
  - apply Z.ltb_lt in E.
    replace (Nat.min (Z.to_nat l) n) with n by lia.
    replace (Nat.min (Z.to_nat l) (S n)) with (S n) by lia.
    rewrite !Nat.sub_diag. cbn [List.repeat]. rewrite !app_nil_r.
    symmetry. apply repeat_cons.
  - apply Z.ltb_ge in E.
    replace (Nat.min (Z.to_nat l) (S n)) with (Nat.min (Z.to_nat l) n) by lia.
    rewrite <- app_assoc. f_equal.
    rewrite <- repeat_cons.
    change (false :: List.repeat false (n - Nat.min (Z.to_nat l) n))
      with (List.repeat false (S (n - Nat.min (Z.to_nat l) n))).
    f_equal. lia.
Qed.

End SizesMore.

(** ** More on [forward] *)

Module ForwardMore.
Import Model ForwardSpec ForwardFacts PipelineSpec.

Section Pipeline.

Context {C : Collaborators}.

Lemma tbind_call_ok {A B} m (a : A) (k : A -> traced B) :
  tbind (call m (Ok a)) k = (m :: fst (k a), snd (k a)).
Proof. unfold tbind, call. destruct (k a). reflexivity. Qed.

Lemma tbind_call_raise {A B} m e (k : A -> traced B) :
  tbind (call m (Raise e : result A)) k = ([m], Raise e).
Proof. reflexivity. Qed.

Lemma tbind_lift_ok {A B} (a : A) (k : A -> traced B) :
  tbind (lift (Ok a)) k = k a.
Proof. unfold tbind, lift. destruct (k a). reflexivity. Qed.

Lemma tbind_lift_raise {A B} e (k : A -> traced B) :
  tbind (lift (Raise e : result A)) k = ([], Raise e).
Proof. reflexivity. Qed.

Lemma tbind_traise {A B} e (k : A -> traced B) :
  tbind (traise e : traced A) k = ([], Raise e).
Proof. reflexivity. Qed.

Lemma follows_tret {A} (a : A) (Q : A -> Prop) :
  Q a -> follows (tret a) [] Q.
Proof.
  intros H. split; [exists []; reflexivity|].
  intros a' [= <-]. split; [reflexivity|exact H].
Qed.

Lemma follows_traise {A} e plan (Q : A -> Prop) :
  follows (traise e) plan Q.
Proof. split; [exists plan; reflexivity|]. intros a H. discriminate H. Qed.

Lemma follows_call {A} m (r : result A) (Q : A -> Prop) :
  (forall a, r = Ok a -> Q a) -> follows (call m r) [m] Q.
Proof.
  intros H. split; [exists []; reflexivity|].
  intros a Ha. split; [reflexivity|apply H; exact Ha].
Qed.

Lemma follows_lift {A} (r : result A) (Q : A -> Prop) :
  (forall a, r = Ok a -> Q a) -> follows (lift r) [] Q.
Proof.
  intros H. split; [exists []; reflexivity|].
  intros a Ha. split; [reflexivity|apply H; exact Ha].
Qed.

Lemma follows_bind {A B} (x : traced A) (k : A -> traced B) p1 p2
    (Q1 : A -> Prop) (Q2 : B -> Prop) :
  follows x p1 Q1 ->
  (forall a, Q1 a -> follows (k a) p2 Q2) ->
  follows (tbind x k) (p1 ++ p2) Q2.
Proof.
  intros [[rest1 Hpre1] Hok1] Hk.
  destruct x as [log [a|e]]; simpl in *.
  - destruct (Hok1 a eq_refl) as [-> Ha].
    destruct (Hk a Ha) as [[rest2 Hpre2] Hok2].
    destruct (k a) as [log' r]. simpl in *. split.
    + exists rest2. rewrite Hpre2. now rewrite app_assoc.
    + intros b Hb. destruct (Hok2 b Hb) as [-> Hq]. split; [reflexivity|exact Hq].
  - split; [|intros b Hb; discriminate Hb].
    exists (rest1 ++ p2). rewrite Hpre1. now rewrite app_assoc.
Qed.

Lemma forward_follows st s sl p pl t tl :
  one_signal s sl p pl ->
  follows (forward st s sl p pl t tl)
    (pipeline st (negb (is_not_None p && is_not_None pl)) (is_not_None t))
    (fun out =>
       let '(transf_log_probs, encoded_len, enc_states, enc_mask) := out in
       is_not_None transf_log_probs = is_not_None t /\
       exists T, lens_to_mask encoded_len T = Ok enc_mask).
Proof.
  unfold one_signal, forward, pipeline. intros Hx. rewrite Hx. cbn [Bool.eqb].
  eapply (follows_bind _ _ _ _ (fun _ => True)).
  { destruct (is_not_None p && is_not_None pl) eqn:Hp; cbn [negb].
    - destruct p as [p|]; [|discriminate]. destruct pl as [pl|]; [|discriminate].
      apply follows_tret. exact I.
    - rewrite xorb_false_r in Hx.
      destruct s as [s|]; [|discriminate]. destruct sl as [sl|]; [|discriminate].
      apply follows_call. trivial. }
  intros [ps psl] _.
  eapply (follows_bind _ _ _ _ (fun _ => True)).
  { destruct spec_augmentation as [augment|]; [destruct (training st)|].
    - apply follows_call. trivial.
    - apply follows_tret. exact I.
    - apply follows_tret. exact I. }
  intros ps' _.
  set (p6 := if use_transf_encoder then [TransfEncoder] else []).
  set (p7 := if is_not_None t then [TransfDecoder; LogSoftmax] else []).
  change ([Encoder; Adapter] ++ p6 ++ p7)
    with ([Encoder] ++ [Adapter] ++ [] ++ p6 ++ p7).
  eapply (follows_bind _ _ _ _ (fun _ => True));
    [apply follows_call; trivial|].
  intros [encoded encoded_len] _.
  eapply (follows_bind _ _ _ _ (fun _ => True));
    [apply follows_call; trivial|].
  intros enc_states _.
  eapply (follows_bind _ _ _ _
            (fun m => lens_to_mask encoded_len (shape_1 enc_states) = Ok m));
    [apply follows_lift; trivial|].
  intros enc_mask Hmask.
  eapply (follows_bind _ _ _ _ (fun _ => True)).
  { subst p6. destruct use_transf_encoder.
    - apply follows_call. trivial.
    - apply follows_tret. exact I. }
  intros enc_states0 _.
  rewrite <- (app_nil_r p7).
  eapply (follows_bind _ _ _ _ (fun lp => is_not_None lp = is_not_None t)).
  { subst p7. destruct t as [transcript|]; cbn [is_not_None].
    - change [TransfDecoder; LogSoftmax]
        with ([] ++ [TransfDecoder] ++ [LogSoftmax] ++ []).
      eapply (follows_bind _ _ _ _ (fun _ => True)).
      { destruct tl; [apply follows_lift; trivial|apply follows_traise]. }
      intros dec_mask _.
      eapply (follows_bind _ _ _ _ (fun _ => True));
        [apply follows_call; trivial|].
      intros dec_states _.
      eapply (follows_bind _ _ _ _ (fun _ => True));
        [apply follows_call; trivial|].
      intros lp _. apply follows_tret. reflexivity.
    - apply follows_tret. reflexivity. }
  intros lp Hlp. apply follows_tret.
  split; [exact Hlp|]. exists (shape_1 enc_states). exact Hmask.
Qed.

Lemma in_prefix {A} (x : A) (l rest whole : list A) :
  whole = l ++ rest -> In x l -> In x whole.
Proof. intros -> H. apply in_or_app. left. exact H. Qed.

Lemma guard_cases s sl p pl :
  one_signal s sl p pl \/ both_or_neither s sl p pl.
Proof.
  unfold one_signal, both_or_neither.
  destruct (is_not_None s && is_not_None sl);
    destruct (is_not_None p && is_not_None pl); simpl; tauto.
Qed.

(** X6: when exactly one signal pair is supplied, [forward] calls its
    submodules in the fixed order preprocessor (raw signal only),
    augmentation (only when configured and in training mode), encoder,
    adapter, transformer encoder (only when configured), decoder and
    log-softmax head (only with a transcript); a failure of a submodule
    stops the pass where it is, and a pass that succeeds has made every
    one of these calls exactly once. *)
Theorem forward_calls_in_order st s sl p pl t tl :
  one_signal s sl p pl ->
  let plan :=
    pipeline st (negb (is_not_None p && is_not_None pl)) (is_not_None t) in
  (exists rest, plan = fst (forward st s sl p pl t tl) ++ rest) /\
  (forall out, snd (forward st s sl p pl t tl) = Ok out ->
     fst (forward st s sl p pl t tl) = plan).
Proof.
  intros Hx plan. destruct (forward_follows st s sl p pl t tl Hx) as [Hpre Hok].
  split; [exact Hpre|]. intros out Hout. apply (Hok out Hout).
Qed.

(** X7: a successful [forward] returns log-probabilities exactly when a
    transcript was passed, and an encoder mask with one row per encoded
    length, all rows of one width, where entry [t] of row [i] says
    whether [t < encoded_len[i]]. *)
Theorem forward_outputs st s sl p pl t tl
    transf_log_probs encoded_len enc_states enc_mask :
  snd (forward st s sl p pl t tl)
  = Ok (transf_log_probs, encoded_len, enc_states, enc_mask) ->
  (is_not_None transf_log_probs = is_not_None t) /\
  List.length enc_mask = List.length encoded_len /\
  exists width,
    forall i l, nth_error encoded_len i = Some l ->
      exists row,
        nth_error enc_mask i = Some row /\
        List.length row = width /\
        forall k, (k < width)%nat ->
          nth_error row k = Some (Z.of_nat k <? l)%Z.
Proof.
  intros Hout.
  destruct (guard_cases s sl p pl) as [Hx|Hb].
  2:{ rewrite (forward_guard_raises st s sl p pl t tl Hb) in Hout.
      discriminate Hout. }
  destruct (forward_follows st s sl p pl t tl Hx) as [_ Hok].
  destruct (Hok _ Hout) as [_ [Hlp [T Hmask]]].
  split; [exact Hlp|].
  destruct (Z.ltb_spec T 0) as [Hneg|Hpos].
  { rewrite (MaskFacts.lens_to_mask_negative _ _ Hneg) in Hmask.
    discriminate Hmask. }
  rewrite (MaskFacts.lens_to_mask_rows _ _ Hpos) in Hmask.
  injection Hmask as <-.
  split; [apply length_map|].
  exists (Z.to_nat T). intros i l Hi.
  exists (MaskSpec.row_of (Z.to_nat T) l).
  split; [rewrite nth_error_map, Hi; reflexivity|].
  split; [apply MaskFacts.row_of_length|].
  intros k Hk. apply MaskFacts.row_of_nth. exact Hk.
Qed.

(** Augmentation in a pass means training mode and a configured
    augmentation. *)
Lemma augmentation_needs_training st s sl p pl t tl :
  In SpecAugment (fst (forward st s sl p pl t tl)) ->
  training st = true /\ spec_augmentation <> None.
Proof.
  destruct (guard_cases s sl p pl) as [Hx|Hb].
  2:{ rewrite (forward_guard_raises st s sl p pl t tl Hb). simpl. tauto. }
  destruct (forward_follows st s sl p pl t tl Hx) as [[rest Hpre] _].
  intros Hin. pose proof (in_prefix _ _ _ _ Hpre Hin) as Hplan.
  unfold pipeline in Hplan.
  destruct spec_augmentation; [destruct (training st)|].
  - split; [reflexivity|discriminate].
  - exfalso.
    destruct (negb (is_not_None p && is_not_None pl));
      destruct use_transf_encoder; destruct (is_not_None t);
      simpl in Hplan; intuition discriminate.
  - exfalso.
    destruct (negb (is_not_None p && is_not_None pl));
      destruct use_transf_encoder; destruct (is_not_None t);
      simpl in Hplan; intuition discriminate.
Qed.

(** X8: the preprocessor runs exactly when the raw signal pair alone is
    supplied, so never on a processed signal; the augmentation can run
    only when one is configured and the model is in training mode, so
    never in evaluation mode. *)
Theorem preprocessor_and_augmentation_calls st s sl p pl t tl :
  (In Preprocessor (fst (forward st s sl p pl t tl)) <->
   is_not_None s && is_not_None sl = true /\
   is_not_None p && is_not_None pl = false) /\
  (In SpecAugment (fst (forward st s sl p pl t tl)) ->
   training st = true /\ spec_augmentation <> None).
Proof.
  split; [|apply augmentation_needs_training].
  destruct (guard_cases s sl p pl) as [Hx|Hb].
  2:{ rewrite (forward_guard_raises st s sl p pl t tl Hb).
      unfold both_or_neither in Hb. simpl.
      split; [tauto|]. intros [H1 H2]. congruence. }
  destruct (forward_follows st s sl p pl t tl Hx) as [[rest Hpre] _].
  split.
  - intros Hin. pose proof (in_prefix _ _ _ _ Hpre Hin) as Hplan.
    unfold one_signal in Hx. unfold pipeline in Hplan.
    destruct (is_not_None p && is_not_None pl).
    + exfalso. cbn [negb app] in Hplan.
      destruct spec_augmentation; [destruct (training st)|];
        destruct use_transf_encoder; destruct (is_not_None t);
        simpl in Hplan; intuition discriminate.
    + rewrite xorb_false_r in Hx. tauto.
  - intros [Hs Hp]. unfold forward.
    rewrite Hs, Hp. cbn [xorb Bool.eqb negb].
    destruct s as [s|]; [|discriminate]. destruct sl as [sl|]; [|discriminate].
    destruct (preprocessor (dither st) (pad_to st) s sl) as [a|e].
    + rewrite tbind_call_ok. left. reflexivity.
    + rewrite tbind_call_raise. left. reflexivity.
Qed.

End Pipeline.

End ForwardMore.

(** ** More on [validation_step] *)

Module ValidationMore.
Import Model Torch SpecialTokens.

Lemma slice_take {A} (k : nat) (row : list A) :
  slice None (Some (Z.of_nat k)) row = firstn k row.
Proof.
  unfold slice, slice_bound.
  destruct (Z.of_nat k <? 0)%Z eqn:E; [apply Z.ltb_lt in E; lia|].
  rewrite Nat2Z.id, Nat.sub_0_r. simpl skipn.
  destruct (Nat.le_ge_cases k (List.length row)) as [H|H].
  - now rewrite Nat.min_r by exact H.
  - rewrite Nat.min_l by exact H.
    rewrite firstn_all. symmetry. apply firstn_all2. exact H.
Qed.

Section Step.

Context {C : Collaborators}.

(** What a successful step went through. *)
Lemma validation_step_inv st dali signal signal_len transcript transcript_len out :
  validation_step st dali (signal, signal_len, transcript, transcript_len)
  = Ok out ->
  exists transf_log_probs encoded_len enc_states enc_mask beam_hypotheses,
    snd (if dali
         then forward st None None (Some signal) (Some signal_len)
                (Some (input_ids_of transcript)) (Some transcript_len)
         else forward st (Some signal) (Some signal_len) None None
                (Some (input_ids_of transcript)) (Some transcript_len))
    = Ok (transf_log_probs, encoded_len, enc_states, enc_mask) /\
    beam_search enc_states enc_mask
      (Some (slice_cols None (Some 5%Z) (input_ids_of transcript)))
    = Ok beam_hypotheses /\
    translations out
    = map _strip_special_tokens (map ids_to_text beam_hypotheses) /\
    ground_truths out
    = map _strip_special_tokens (map ids_to_text transcript).
Proof.
  unfold validation_step.
  destruct (snd (if dali then _ else _)) as [[[[lp el] es] em]|e];
    simpl; [|discriminate].
  destruct (beam_search es em _) as [hyps|e] eqn:Eb; simpl; [|discriminate].
  destruct (apply_transf_loss lp (labels_of transcript)) as [l|e];
    simpl; [|discriminate].
  intros [= <-]. exists lp, el, es, em, hyps. repeat split. exact Eb.
Qed.

(** X9: the mapping a successful validation or test step returns holds
    one ground truth per transcript row, in row order, each the
    detokenised row with its special tokens stripped, and one translation
    per beam hypothesis; none of these texts holds a substring matching
    the special-token pattern. *)
Theorem validation_texts_are_stripped
    st dali signal signal_len transcript transcript_len out :
  validation_step st dali (signal, signal_len, transcript, transcript_len)
  = Ok out ->
  ground_truths out
  = map (fun row => _strip_special_tokens (ids_to_text row)) transcript /\
  List.length (ground_truths out) = List.length transcript /\
  Forall (fun g => has_special_token g = false) (ground_truths out) /\
  Forall (fun t => has_special_token t = false) (translations out) /\
  exists beam_hypotheses,
    translations out
    = map (fun hyp => _strip_special_tokens (ids_to_text hyp)) beam_hypotheses.
Proof.
  intros H. apply validation_step_inv in H.
  destruct H as [lp [el [es [em [hyps [_ [_ [Ht Hg]]]]]]]].
  rewrite Hg, Ht, !map_map.
  split; [reflexivity|]. split; [apply length_map|].
  split; [|split].
  - apply Forall_forall. intros g Hin. apply in_map_iff in Hin.
    destruct Hin as [row [<- _]].
    apply SpecialTokensFacts.strip_has_no_special_token.
  - apply Forall_forall. intros g Hin. apply in_map_iff in Hin.
    destruct Hin as [row [<- _]].
    apply SpecialTokensFacts.strip_has_no_special_token.
  - exists hyps. reflexivity.
Qed.

(** X10: in a validation or test step the beam search is seeded, row by
    row, with the first [min(5, n-1)] tokens of the transcript row of
    [n] tokens: at most five tokens, and never the last one. *)
Theorem validation_beam_search_context
    st dali signal signal_len transcript transcript_len out :
  validation_step st dali (signal, signal_len, transcript, transcript_len)
  = Ok out ->
  exists enc_states enc_mask decoder_input_ids beam_hypotheses,
    beam_search enc_states enc_mask (Some decoder_input_ids)
    = Ok beam_hypotheses /\
    translations out
    = map _strip_special_tokens (map ids_to_text beam_hypotheses) /\
    decoder_input_ids
    = map (fun row => firstn (Nat.min 5 (List.length row - 1)) row)
          transcript.
Proof.
  intros H. apply validation_step_inv in H.
  destruct H as [lp [el [es [em [hyps [_ [Hb [Ht _]]]]]]]].
  exists es, em, (slice_cols None (Some 5%Z) (input_ids_of transcript)), hyps.
  split; [exact Hb|]. split; [exact Ht|].
  unfold slice_cols, input_ids_of, slice_cols. rewrite map_map.
  apply map_ext. intros row.
  rewrite ShiftFacts.slice_drop_last.
  change 5%Z with (Z.of_nat 5). rewrite slice_take.
  apply firstn_firstn.
Qed.

End Step.

End ValidationMore.

(** ** More on [transcribe] *)

Module TranscribeMore.
Import Model TranscribeSpec TranscribeFacts.

Lemma batch_sampler_sizes {A} (n : nat) (sampler : list A) :
  forall batch, (1 <= n)%nat -> (List.length batch < n)%nat ->
  Forall (fun b => (1 <= List.length b <= n)%nat)
         (batch_sampler n batch sampler).
Proof.
  induction sampler as [|idx rest IH]; intros batch Hn Hb; simpl.
  - destruct batch as [|x batch]; constructor; [simpl in *; lia|constructor].
  - destruct (List.length (batch ++ [idx]) =? n)%nat eqn:E.
    + apply Nat.eqb_eq in E. constructor; [lia|].
      apply IH; [exact Hn|simpl; lia].
    + apply Nat.eqb_neq in E. apply IH; [exact Hn|].
      rewrite length_app in *. simpl in *. lia.
Qed.

Lemma batch_sampler_full {A} (n : nat) (sampler : list A) :
  forall batch pre b post,
  batch_sampler n batch sampler = pre ++ b :: post -> post <> [] ->
  List.length b = n.
Proof.
  induction sampler as [|idx rest IH]; intros batch pre b post H Hpost; simpl in H.
  - destruct batch; destruct pre as [|? [|? ?]]; simpl in H;
      try discriminate; injection H as _ H; congruence.
  - destruct (List.length (batch ++ [idx]) =? n)%nat eqn:E.
    + destruct pre as [|x pre]; simpl in H; injection H as Hb Hrest.
      * subst b. apply Nat.eqb_eq in E. exact E.
      * eapply IH; eassumption.
    + eapply IH; eassumption.
Qed.

Lemma batch_sampler_single {A} (n : nat) (sampler : list A) :
  forall batch, (List.length (batch ++ sampler) <= n)%nat ->
  batch ++ sampler <> [] ->
  batch_sampler n batch sampler = [batch ++ sampler].
Proof.
  induction sampler as [|idx rest IH]; intros batch Hlen Hne; simpl.
  - rewrite app_nil_r in *. destruct batch; [congruence|reflexivity].
  - destruct (List.length (batch ++ [idx]) =? n)%nat eqn:E.
    + apply Nat.eqb_eq in E. rewrite !length_app in *. simpl in *.
      assert (rest = []) by (destruct rest; [reflexivity|simpl in *; lia]).
      subst rest. reflexivity.
    + replace (batch ++ idx :: rest) with ((batch ++ [idx]) ++ rest) in *
        by (rewrite <- app_assoc; reflexivity).
      apply IH; [exact Hlen|].
      intros H. apply app_eq_nil in H. destruct H as [H _].
      apply app_eq_nil in H. destruct H as [_ H]. discriminate H.
Qed.

Lemma state_after_twice st : state_after (state_after st) = state_after st.
Proof. reflexivity. Qed.

Section Orchestrator.

Context {C : Collaborators}.


(** With [return_hypotheses] the body fails where it reads [logits]. *)
Lemma transcribe_batch_with_hypotheses st b :
  transcribe_batch st true b
  = match transcribe_batch st false b with
    | Ok _ => Raise NameError
    | Raise e => Raise e
    end.
Proof.
  unfold transcribe_batch.
  destruct (load_batch b) as [[sig len]|e]; simpl; [|reflexivity].
  destruct (snd (forward _ _ _ _ _ _ _)) as [[[[lp el] es] em]|e]; simpl;
    [|reflexivity].
  destruct (beam_search es em None); reflexivity.
Qed.

Lemma transcribe_batch_raises_with_hypotheses st b :
  exists e, transcribe_batch st true b = Raise e /\
            (forall texts, transcribe_batch st false b = Ok texts ->
                           e = NameError).
Proof.
  rewrite transcribe_batch_with_hypotheses.
  destruct (transcribe_batch st false b) as [ts|e].
  - exists NameError. split; [reflexivity|]. reflexivity.
  - exists e. split; [reflexivity|]. intros; discriminate.
Qed.

(** What the loop returns is what it began with, followed by tokenizer
    output. *)
Lemma transcribe_loop_texts st rh batches :
  forall hypotheses texts,
  transcribe_loop st rh batches hypotheses = Ok texts ->
  exists more,
    texts = hypotheses ++ more /\
    Forall (fun t => exists ids, t = ids_to_text ids) more.
Proof.
  induction batches as [|b rest IH]; intros hyps texts; simpl.
  - intros [= <-]. exists []. split; [now rewrite app_nil_r|constructor].
  - destruct (transcribe_batch st rh b) as [ts|e] eqn:Eb; simpl;
      [|discriminate].
    intros H. destruct (IH _ _ H) as [more [-> Hmore]].
    exists (ts ++ more). split; [now rewrite app_assoc|].
    apply Forall_app. split; [|exact Hmore].
    destruct rh.
    + rewrite transcribe_batch_with_hypotheses in Eb.
      destruct (transcribe_batch st false b); discriminate.
    + destruct (transcribe_batch_texts _ _ _ Eb) as [ids ->].
      apply Forall_forall. intros t Hin. apply in_map_iff in Hin.
      destruct Hin as [i [<- _]]. exists i. reflexivity.
Qed.


(** X12: once a call with at least one file and admissible flags has
    returned, by a result or by an exception, any further call of
    [transcribe] leaves the state of the model exactly as that first call
    left it. *)
Theorem transcribe_state_settles
    p ps batch_size logprobs return_hypotheses st
    paths' batch_size' logprobs' return_hypotheses' :
  return_hypotheses && logprobs = false ->
  let st1 := fst (transcribe (Some (p :: ps)) batch_size logprobs
                    return_hypotheses st) in
  fst (transcribe paths' batch_size' logprobs' return_hypotheses' st1) = st1.
Proof.
  intros Hflags. cbv zeta. rewrite (transcribe_state _ _ _ _ _ _ Hflags).
  destruct paths' as [[|p' ps']|]; try reflexivity.
  destruct (return_hypotheses' && logprobs') eqn:Hflags'.
  - unfold transcribe. rewrite Hflags'. reflexivity.
  - rewrite (transcribe_state _ _ _ _ _ _ Hflags'). apply state_after_twice.
Qed.

(** X13: with [return_hypotheses=True] (and [logprobs=False]) a call on
    at least one file never returns hypotheses: the first batch ends in
    an exception, and that exception is [NameError] whenever the batch
    itself loads and decodes, because the loop body reads the unbound
    name [logits]. *)
Theorem return_hypotheses_always_raises
    (paths2audio_files : list string) (batch_size : Z) (st : model_state) :
  paths2audio_files <> [] ->
  (1 <= batch_size)%Z ->
  dataset_in_order paths2audio_files ->
  exists e first rest,
    batches_of paths2audio_files batch_size = first :: rest /\
    snd (transcribe (Some paths2audio_files) batch_size false true st)
    = Raise e /\
    (forall texts,
       transcribe_batch (inference_state st) false first = Ok texts ->
       e = NameError).
Proof.
  intros Hne Hbs Hds.
  destruct (batches_of paths2audio_files batch_size) as [|first rest] eqn:Eb.
  { exfalso. apply Hne.
    pose proof (concat_batch_sampler
                  (Z.to_nat (Z.min batch_size
                     (Z.of_nat (List.length paths2audio_files))))
                  paths2audio_files []) as Hcat.
    unfold batches_of in Eb. rewrite Eb in Hcat. simpl in Hcat.
    symmetry. exact Hcat. }
  destruct (transcribe_batch_raises_with_hypotheses (inference_state st) first)
    as [e [He Hname]].
  exists e, first, rest. split; [reflexivity|]. split; [|exact Hname].
  destruct paths2audio_files as [|p ps]; [congruence|].
  rewrite transcribe_outcome by reflexivity.
  rewrite setup_dataloader_ok by (congruence || assumption).
  rewrite Eb. cbn [bind transcribe_loop]. rewrite He. reflexivity.
Qed.

(** X14: [transcribe] never returns log probabilities: with
    [logprobs=True] alone it does exactly what it does with
    [logprobs=False], and under every combination of flags a list it
    returns consists of texts produced by the tokenizer's
    [ids_to_text]. *)
Theorem transcribe_returns_texts_only
    (paths2audio_files : option (list string)) (batch_size : Z)
    (st : model_state) :
  transcribe paths2audio_files batch_size true false st
  = transcribe paths2audio_files batch_size false false st /\
  (forall logprobs return_hypotheses texts,
     snd (transcribe paths2audio_files batch_size logprobs
            return_hypotheses st) = Ok (Hypotheses texts) ->
     Forall (fun t => exists ids, t = ids_to_text ids) texts).
Proof.
  split; [destruct paths2audio_files as [[|p ps]|]; reflexivity|].
  intros logprobs return_hypotheses texts.
  destruct paths2audio_files as [[|p ps]|]; try discriminate.
  destruct (return_hypotheses && logprobs) eqn:Hflags.
  - unfold transcribe. rewrite Hflags. discriminate.
  - rewrite transcribe_outcome by exact Hflags.
    destruct (_setup_transcribe_dataloader _ _ _) as [[dl|]|e]; simpl;
      try discriminate.
    destruct (transcribe_loop _ _ dl []) as [ts|e] eqn:El; simpl;
      [|discriminate].
    intros [= <-].
    destruct (transcribe_loop_texts _ _ _ _ _ El) as [more [-> Hmore]].
    exact Hmore.
Qed.

(** X15: the temporary data loader works with the batch size
    [min(batch_size, number of files)]: its batches, put end to end, are
    the files in input order; every batch holds at least one file and at
    most that many; every batch but the last holds exactly that many;
    and with a batch size of at least the number of files there is one
    batch with all of them. *)
Theorem transcribe_batches
    (paths2audio_files : list string) (batch_size : Z) :
  paths2audio_files <> [] ->
  (1 <= batch_size)%Z ->
  dataset_in_order paths2audio_files ->
  let size := Nat.min (Z.to_nat batch_size) (List.length paths2audio_files) in
  exists batches,
    _setup_transcribe_dataloader paths2audio_files batch_size
      (manifest_of paths2audio_files) = Ok (Some batches) /\
    List.concat batches = paths2audio_files /\
    Forall (fun b => (1 <= List.length b <= size)%nat) batches /\
    (forall pre b post, batches = pre ++ b :: post -> post <> [] ->
       List.length b = size) /\
    ((Z.of_nat (List.length paths2audio_files) <= batch_size)%Z ->
     batches = [paths2audio_files]).
Proof.
  intros Hne Hbs Hds size.
  exists (batches_of paths2audio_files batch_size).
  split; [apply setup_dataloader_ok; assumption|].
  assert (Hsize : Z.to_nat (Z.min batch_size
                    (Z.of_nat (List.length paths2audio_files))) = size)
    by (unfold size; lia).
  assert (Hlen : (1 <= List.length paths2audio_files)%nat)
    by (destruct paths2audio_files; [congruence|simpl; lia]).
  unfold batches_of. rewrite Hsize.
  split; [apply concat_batch_sampler|].
  split; [apply batch_sampler_sizes; simpl; unfold size; lia|].
  split; [intros pre b post; apply batch_sampler_full|].
  intros Hall. apply (batch_sampler_single size paths2audio_files []).
  - simpl. unfold size. lia.
  - exact Hne.
Qed.

(** X16: with a batch size of zero or less the data loader is refused:
    the call on at least one file raises [ValueError], no batch is
    processed, and the state is the one the cleanup leaves. *)
Theorem transcribe_batch_size_not_positive
    (paths2audio_files dataset : list string) (batch_size : Z)
    (logprobs return_hypotheses : bool) (st : model_state) :
  paths2audio_files <> [] ->
  return_hypotheses && logprobs = false ->
  (batch_size <= 0)%Z ->
  get_audio_to_text_bpe_dataset_from_config (manifest_of paths2audio_files)
  = Ok (Some dataset) ->
  transcribe (Some paths2audio_files) batch_size logprobs return_hypotheses st
  = (state_after st, Raise ValueError).
Proof.
  intros Hne Hflags Hbs Hds.
  destruct paths2audio_files as [|p ps]; [congruence|].
  rewrite (surjective_pairing (transcribe _ _ _ _ _)).
  rewrite transcribe_state, transcribe_outcome by exact Hflags.
  unfold _setup_transcribe_dataloader, _setup_dataloader_from_config.
  rewrite Hds. cbn [bind]. unfold DataLoader.
  destruct (Z.min batch_size (Z.of_nat (List.length (p :: ps))) <=? 0)%Z eqn:E;
    [reflexivity|].
  apply Z.leb_gt in E. lia.
Qed.

End Orchestrator.

End TranscribeMore.

(** ** More on the epoch-end aggregation *)

Module EpochEndMore.
Import EpochEnd EpochEndSpec EpochEndFacts AveragingSpec.

Section Aggregation.

Context {loss : Type} {scorers : Scorers loss}.

(** What worker 0 logs when a pair is left. *)
Lemma pass_rank_0 world_size k
    (output_of : nat -> list (Model.output_dict loss)) :
  (1 <= world_size)%nat ->
  all_pairs world_size output_of <> [] ->
  let pairs := all_pairs world_size output_of in
  epoch_end_pass world_size 0 k output_of
  = Ok {| logged_loss := val_loss_compute k;
          logged_sacreBLEU :=
            (corpus_bleu (map fst pairs) [map snd pairs]
             * inject_Z (Z.of_nat world_size))%Q;
          logged_WER :=
            (1 * inject_Z (total_distance pairs)
             * inject_Z (Z.of_nat world_size)
             / inject_Z (total_words pairs))%Q |}.
Proof.
  intros Hws Hpairs pairs.
  assert (Hwords : (0 < total_words pairs)%Z)
    by (apply total_words_pos; [apply all_pairs_have_words|exact Hpairs]).
  unfold epoch_end_pass. rewrite gather_ok by exact Hws. cbn [bind].
  rewrite scores_rank_0 by exact Hws. fold pairs. cbv zeta.
  unfold true_div.
  destruct (total_words pairs =? 0)%Z eqn:E; [apply Z.eqb_eq in E; lia|].
  reflexivity.
Qed.

(** What any other worker logs. *)
Lemma pass_other_rank world_size global_rank k
    (output_of : nat -> list (Model.output_dict loss)) :
  (1 <= world_size)%nat -> global_rank <> 0%nat ->
  epoch_end_pass world_size global_rank k output_of
  = Ok {| logged_loss := val_loss_compute k;
          logged_sacreBLEU := 0%Q;
          logged_WER := 0%Q |}.
Proof.
  intros Hws Hrank. unfold epoch_end_pass.
  rewrite gather_ok by exact Hws. cbn [bind]. unfold scores.
  destruct (global_rank =? 0)%nat eqn:E; [apply Nat.eqb_eq in E; tauto|].
  reflexivity.
Qed.

Lemma sum_of_zeros (value : nat -> Q) (ranks : list nat) :
  (forall r, In r ranks -> value r = 0%Q) ->
  (fold_right Qplus 0 (map value ranks) == 0)%Q.
Proof.
  induction ranks as [|r rest IH]; intros H; simpl; [reflexivity|].
  rewrite (H r) by (left; reflexivity).
  rewrite IH by (intros r' Hr'; apply H; right; exact Hr').
  reflexivity.
Qed.

Lemma mean_of_coordinator (world_size : nat) (value : nat -> Q) :
  (1 <= world_size)%nat ->
  (forall r, r <> 0%nat -> value r = 0%Q) ->
  (mean_over_workers world_size value
   == value 0%nat / inject_Z (Z.of_nat world_size))%Q.
Proof.
  intros Hws Hz. unfold mean_over_workers.
  destruct world_size as [|n]; [lia|].
  rewrite <- cons_seq. simpl fold_right.
  rewrite sum_of_zeros.
  - rewrite Qplus_0_r. reflexivity.
  - intros r Hr. apply Hz. apply in_seq in Hr. lia.
Qed.

Lemma total_words_perm pairs pairs' :
  Permutation pairs pairs' -> total_words pairs = total_words pairs'.
Proof.
  induction 1; unfold total_words in *; simpl; try lia.
Qed.

Lemma total_distance_perm pairs pairs' :
  Permutation pairs pairs' -> total_distance pairs = total_distance pairs'.
Proof.
  induction 1; unfold total_distance in *; simpl; try lia.
Qed.

Lemma total_distance_zero pairs :
  (forall ws, editdistance_eval ws ws = 0%Z) ->
  Forall (fun hr => PyStr.split (fst hr) = PyStr.split (snd hr)) pairs ->
  total_distance pairs = 0%Z.
Proof.
  intros Hd. induction 1 as [|hr rest Hhr _ IH]; [reflexivity|].
  unfold total_distance in *. simpl. rewrite Hhr, Hd, IH. reflexivity.
Qed.

(** X17: with at least one worker, the pass on worker 0 logs a result
    exactly when some worker holds a pair whose ground truth has a
    non-blank character: with no such pair there is no reference word to
    divide by, and the pass ends in an exception and logs nothing; the
    pass on any other worker never fails and logs zeros, whatever the
    outputs are. *)
Theorem epoch_end_fails_without_references
    (world_size k : nat)
    (output_of : nat -> list (Model.output_dict loss)) :
  (1 <= world_size)%nat ->
  ((exists entry, epoch_end_pass world_size 0 k output_of = Ok entry)
   <-> all_pairs world_size output_of <> []) /\
  (forall global_rank, global_rank <> 0%nat ->
     epoch_end_pass world_size global_rank k output_of
     = Ok {| logged_loss := val_loss_compute k;
             logged_sacreBLEU := 0%Q;
             logged_WER := 0%Q |}).
Proof.
  intros Hws. split; [split|].
  - intros [entry Hentry] Hnone.
    rewrite (no_pairs_left _ _ _ Hws Hnone) in Hentry. discriminate Hentry.
  - intros Hne. eexists. apply (pass_rank_0 _ _ _ Hws Hne).
  - intros rank Hrank. apply pass_other_rank; assumption.
Qed.

(** X18: the values are logged so that their mean over the workers is
    the corpus value: with a pair left, every worker's pass succeeds, the
    mean of the logged WER over all workers is the total edit distance
    divided by the total number of reference words, and the mean of the
    logged BLEU is the corpus BLEU of all pairs, whatever the number of
    workers. *)
Theorem mean_over_workers_is_corpus_value
    (world_size k : nat)
    (output_of : nat -> list (Model.output_dict loss)) :
  (1 <= world_size)%nat ->
  all_pairs world_size output_of <> [] ->
  let pairs := all_pairs world_size output_of in
  exists entry : nat -> logged,
    (forall r, epoch_end_pass world_size r k output_of = Ok (entry r)) /\
    (mean_over_workers world_size (fun r => logged_WER (entry r))
     == inject_Z (total_distance pairs) / inject_Z (total_words pairs))%Q /\
    (mean_over_workers world_size (fun r => logged_sacreBLEU (entry r))
     == corpus_bleu (map fst pairs) [map snd pairs])%Q.
Proof.
  intros Hws Hne pairs.
  assert (Hwords : (0 < total_words pairs)%Z)
    by (apply total_words_pos; [apply all_pairs_have_words|exact Hne]).
  exists (fun r =>
            match r with
            | 0%nat =>
                {| logged_loss := val_loss_compute k;
                   logged_sacreBLEU :=
                     (corpus_bleu (map fst pairs) [map snd pairs]
                      * inject_Z (Z.of_nat world_size))%Q;
                   logged_WER :=
                     (1 * inject_Z (total_distance pairs)
                      * inject_Z (Z.of_nat world_size)
                      / inject_Z (total_words pairs))%Q |}
            | _ =>
                {| logged_loss := val_loss_compute k;
                   logged_sacreBLEU := 0%Q;
                   logged_WER := 0%Q |}
            end).
  split; [|split].
  - intros [|r].
    + apply (pass_rank_0 _ _ _ Hws Hne).
    + apply pass_other_rank; [exact Hws|discriminate].
  - rewrite mean_of_coordinator;
      [|exact Hws|intros [|r] Hr; [congruence|reflexivity]].
    cbn [logged_WER]. field. split.
    + intros Hq. unfold Qeq in Hq. simpl in Hq. lia.
    + intros Hq. unfold Qeq in Hq. simpl in Hq. lia.
  - rewrite mean_of_coordinator;
      [|exact Hws|intros [|r] Hr; [congruence|reflexivity]].
    cbn [logged_sacreBLEU]. field.
    intros Hq. unfold Qeq in Hq. simpl in Hq. lia.
Qed.

Lemma levenshtein_refl (ws : list string) : levenshtein ws ws = 0%nat.
Proof.
  induction ws as [|w ws IH]; simpl; [reflexivity|].
  now rewrite String.eqb_refl.
Qed.

(** X19: when every pair that is kept has a translation with the same
    words as its ground truth (whitespace aside) and the edit distance of
    a word list to itself is zero, the WER logged by worker 0 is zero. *)
Theorem wer_of_exact_translations
    (world_size k : nat)
    (output_of : nat -> list (Model.output_dict loss)) :
  (1 <= world_size)%nat ->
  all_pairs world_size output_of <> [] ->
  (forall ws, editdistance_eval ws ws = 0%Z) ->
  Forall (fun hr => PyStr.split (fst hr) = PyStr.split (snd hr))
         (all_pairs world_size output_of) ->
  exists entry,
    epoch_end_pass world_size 0 k output_of = Ok entry /\
    (logged_WER entry == 0)%Q.
Proof.
  intros Hws Hne Hd Hsame. eexists.
  split; [apply (pass_rank_0 _ _ _ Hws Hne)|].
  cbn [logged_WER]. rewrite (total_distance_zero _ Hd Hsame).
  assert (Hwords : (0 < total_words (all_pairs world_size output_of))%Z)
    by (apply total_words_pos; [apply all_pairs_have_words|exact Hne]).
  field. intros Hq. unfold Qeq in Hq. simpl in Hq. lia.
Qed.

(** X20: the WER depends on the kept pairs as a collection only: two
    sets of step outputs whose kept pairs are the same up to order - the
    same pairs spread differently over steps and workers - give the same
    WER on worker 0. *)
Theorem wer_independent_of_sharding
    (world_size k : nat)
    (output_of output_of' : nat -> list (Model.output_dict loss)) :
  (1 <= world_size)%nat ->
  all_pairs world_size output_of <> [] ->
  Permutation (all_pairs world_size output_of)
              (all_pairs world_size output_of') ->
  exists entry entry',
    epoch_end_pass world_size 0 k output_of = Ok entry /\
    epoch_end_pass world_size 0 k output_of' = Ok entry' /\
    logged_WER entry = logged_WER entry'.
Proof.
  intros Hws Hne Hperm.
  assert (Hne' : all_pairs world_size output_of' <> []).
  { intros H. rewrite H in Hperm. apply Permutation_sym in Hperm.
    apply Permutation_nil in Hperm. tauto. }
  eexists. eexists.
  split; [apply (pass_rank_0 _ _ _ Hws Hne)|].
  split; [apply (pass_rank_0 _ _ _ Hws Hne')|].
  cbn [logged_WER].
  now rewrite (total_distance_perm _ _ Hperm), (total_words_perm _ _ Hperm).
Qed.

(** The loop on a worker that is not worker 0. *)
Lemma loop_other_rank world_size global_rank peers outputs :
  (1 <= world_size)%nat -> global_rank <> 0%nat ->
  forall k,
  epoch_end_loop world_size global_rank k peers outputs
  = Ok (map (fun i => {| logged_loss := val_loss_compute i;
                         logged_sacreBLEU := 0%Q;
                         logged_WER := 0%Q |})
            (seq k (List.length outputs))).
Proof.
  intros Hws Hrank. induction outputs as [|output rest IH]; intros k; simpl;
    [reflexivity|].
  rewrite pass_other_rank by assumption. cbn [bind].
  rewrite IH. reflexivity.
Qed.

(** X21: on a worker other than worker 0 the hook never fails: it logs
    nothing when it was given no outputs, and otherwise one entry per
    data loader, each with BLEU 0 and WER 0 and the running loss of that
    pass. *)
Theorem epoch_end_on_other_workers
    (world_size global_rank : nat) (outputs_of : nat -> step_outputs) :
  (1 <= world_size)%nat ->
  global_rank <> 0%nat ->
  multi_validation_epoch_end world_size global_rank outputs_of
  = Ok (if is_empty (outputs_of global_rank) then []
        else map (fun i => {| logged_loss := val_loss_compute i;
                              logged_sacreBLEU := 0%Q;
                              logged_WER := 0%Q |})
                 (seq 0 (List.length (wrap (outputs_of global_rank))))).
Proof.
  intros Hws Hrank. unfold multi_validation_epoch_end.
  destruct (is_empty (outputs_of global_rank)); [reflexivity|].
  apply loop_other_rank; assumption.
Qed.

End Aggregation.

End EpochEndMore.

(** ** Configuration handling *)

Module SetupFacts.
Import Setup SetupSpec.

Lemma get_setitem_same d key value : get (setitem d key value) key = Some value.
Proof.
  induction d as [|[k v] rest IH]; simpl.
  - now rewrite String.eqb_refl.
  - destruct (String.eqb k key) eqn:E; simpl; rewrite E; [reflexivity|exact IH].
Qed.

Lemma get_setitem_other d key value key' :
  key' <> key -> get (setitem d key value) key' = get d key'.
Proof.
  intros Hne. induction d as [|[k v] rest IH]; simpl.
  - destruct (String.eqb key key') eqn:E; [|reflexivity].
    apply String.eqb_eq in E. congruence.
  - destruct (String.eqb k key) eqn:E; simpl.
    + apply String.eqb_eq in E. subst k.
      destruct (String.eqb key key') eqn:E'; [|reflexivity].
      apply String.eqb_eq in E'. congruence.
    + destruct (String.eqb k key'); [reflexivity|exact IH].
Qed.

Lemma get_remove_same d key : get (remove d key) key = None.
Proof.
  induction d as [|[k v] rest IH]; simpl; [reflexivity|].
  destruct (String.eqb k key) eqn:E; simpl; [exact IH|].
  rewrite E. exact IH.
Qed.

Lemma get_remove_other d key key' :
  key' <> key -> get (remove d key) key' = get d key'.
Proof.
  intros Hne. induction d as [|[k v] rest IH]; simpl; [reflexivity|].
  destruct (String.eqb k key) eqn:E; simpl.
  - apply String.eqb_eq in E. subst k.
    destruct (String.eqb key key') eqn:E'; [|exact IH].
    apply String.eqb_eq in E'. congruence.
  - destruct (String.eqb k key'); [reflexivity|exact IH].
Qed.

(** X22: the configuration [__init__] passes to [get_transformer] for
    the decoder always carries the padded vocabulary size under
    [vocab_size], whatever the user's configuration says there, and never
    the keys [library], [model_name] and [pretrained], which are passed
    as arguments of their own with the defaults ['nemo'], [None] and
    [False]; every other key of the user's configuration is handed on
    unchanged. *)
Theorem decoder_configuration (transf_decoder_cfg_dict : dict)
    (tokenizer_vocab_size : Z) :
  let a := decoder_arguments transf_decoder_cfg_dict tokenizer_vocab_size in
  get (config_dict a) "vocab_size"
    = Some (VInt (vocab_size tokenizer_vocab_size)) /\
  get (config_dict a) "library" = None /\
  get (config_dict a) "model_name" = None /\
  get (config_dict a) "pretrained" = None /\
  (forall key, ~ In key decoder_keys ->
     get (config_dict a) key = get transf_decoder_cfg_dict key) /\
  library a = get_default transf_decoder_cfg_dict "library" (VStr "nemo") /\
  model_name a = get_default transf_decoder_cfg_dict "model_name" VNone /\
  pretrained a
    = get_default transf_decoder_cfg_dict "pretrained" (VBool false) /\
  pre_ln_final_layer_norm a
    = get_default transf_decoder_cfg_dict "pre_ln_final_layer_norm"
        (VBool false) /\
  encoder a = false.
Proof.
  unfold decoder_arguments, pop. cbv zeta. cbn [config_dict library model_name
    pretrained pre_ln_final_layer_norm encoder].
  unfold get_default.
  repeat split;
    repeat first
      [ rewrite get_remove_same
      | rewrite get_setitem_same
      | rewrite get_remove_other by discriminate
      | rewrite get_setitem_other by discriminate ];
    try reflexivity.
  intros key Hkey.
  assert (Hk : key <> "vocab_size" /\ key <> "library"
               /\ key <> "model_name" /\ key <> "pretrained").
  { unfold decoder_keys in Hkey. simpl in Hkey. repeat split; intros ->; tauto. }
  destruct Hk as [H1 [H2 [H3 H4]]].
  rewrite !get_remove_other by assumption.
  apply get_setitem_other. exact H1.
Qed.

Section DataSetupFacts.

Context {F : Factories}.

Lemma setup_with_dataset (config : dict) (ds : dataset) :
  truthy (get_default config "use_lhotse" VNone) = false ->
  get_audio_to_text_bpe_dataset_from_config config = Done (Some ds) ->
  _setup_dataloader_from_config config
  = match get config "shuffle", get config "batch_size" with
    | None, _ => Fail (KeyError "shuffle")
    | Some _, None => Fail (KeyError "batch_size")
    | Some shuffle, Some batch_size =>
        Done (Torch
                {| dl_dataset := ds;
                   dl_batch_size := batch_size;
                   dl_collate_fn :=
                     if has_collate_fn ds then OfDataset else OfFirstMember;
                   dl_drop_last := get_default config "drop_last" (VBool false);
                   dl_shuffle :=
                     if truthy (get_default config "is_tarred" (VBool false))
                     then VBool false else shuffle;
                   dl_num_workers := get_default config "num_workers" (VInt 0);
                   dl_pin_memory :=
                     get_default config "pin_memory" (VBool false) |})
    end.
Proof.
  intros Hl Hds. unfold _setup_dataloader_from_config.
  rewrite Hl, Hds. cbn [and_then]. unfold getitem.
  destruct (get config "shuffle"); cbn [and_then]; [|reflexivity].
  destruct (get config "batch_size"); reflexivity.
Qed.




(** X25: [setup_training_data] stores the loader of
    [_setup_dataloader_from_config] and leaves the trainer's
    [limit_train_batches] alone when the configuration is not tarred,
    when the limit is an [int], and when there is no trainer. *)
Theorem training_limit_kept (world_size : Z) (train_data_config : dict)
    (dl : data_loader) :
  _setup_dataloader_from_config train_data_config = Done dl ->
  (is_tarred train_data_config = false ->
   forall trainer,
     setup_training_data world_size trainer train_data_config
     = Done (dl, trainer)) /\
  (forall n,
     setup_training_data world_size (Some (LimitInt n)) train_data_config
     = Done (dl, Some (LimitInt n))) /\
  setup_training_data world_size None train_data_config = Done (dl, None).
Proof.
  intros Hdl. unfold setup_training_data, is_tarred. rewrite Hdl.
  cbn [and_then].
  split; [|split].
  - intros -> trainer. reflexivity.
  - intros n. destruct (_ && _); reflexivity.
  - destruct (_ && _); reflexivity.
Qed.


(** X27: the temporary loader of [transcribe], built by the general
    [_setup_dataloader_from_config] from the configuration
    [_setup_transcribe_dataloader] writes, neither shuffles nor drops a
    last batch, pins memory, and uses [min(batch_size, number of files)]
    as batch size and at most that many workers; iterated over a data set
    that lists the files in input order it yields the files in order in
    batches of that size. *)
Theorem transcribe_loader_batches (paths2audio_files : list string)
    (batch_size : Z) (manifest_filepath : string) (sample_rate cpu_count : Z)
    (ds : dataset) :
  paths2audio_files <> [] ->
  (1 <= batch_size)%Z ->
  get_audio_to_text_bpe_dataset_from_config
    (transcribe_dl_config paths2audio_files batch_size manifest_filepath
       sample_rate cpu_count) = Done (Some ds) ->
  items ds = paths2audio_files ->
  exists a,
    _setup_transcribe_dataloader paths2audio_files batch_size
      manifest_filepath sample_rate cpu_count = Done (Torch a) /\
    dl_shuffle a = VBool false /\
    dl_drop_last a = VBool false /\
    dl_pin_memory a = VBool true /\
    dl_batch_size a
    = VInt (Z.min batch_size (Z.of_nat (List.length paths2audio_files))) /\
    (exists workers,
       dl_num_workers a = VInt workers /\
       (workers <= batch_size)%Z /\
       (workers <= Z.of_nat (List.length paths2audio_files))%Z /\
       (workers <= cpu_count - 1)%Z) /\
    sequential_batches a
    = Some (TranscribeSpec.batches_of paths2audio_files batch_size) /\
    List.concat (TranscribeSpec.batches_of paths2audio_files batch_size)
    = paths2audio_files.
Proof.
  intros Hne Hbs Hds Hitems.
  unfold _setup_transcribe_dataloader.
  rewrite (setup_with_dataset
             (transcribe_dl_config paths2audio_files batch_size
                manifest_filepath sample_rate cpu_count) ds eq_refl Hds).
  cbn [transcribe_dl_config get String.eqb Ascii.eqb Bool.eqb get_default].
  eexists. split; [reflexivity|].
  cbn [dl_shuffle dl_drop_last dl_pin_memory dl_batch_size dl_num_workers
       truthy].
  repeat split.
  - eexists. split; [reflexivity|]. lia.
  - unfold sequential_batches.
    cbn [dl_shuffle dl_drop_last dl_batch_size dl_dataset truthy negb andb].
    assert (Hpos : (0 <? Z.min batch_size
                           (Z.of_nat (List.length paths2audio_files)))%Z
                   = true).
    { apply Z.ltb_lt. destruct paths2audio_files; [congruence|].
      simpl List.length. lia. }
    rewrite Hpos, Hitems. reflexivity.
  - unfold TranscribeSpec.batches_of.
    apply TranscribeFacts.concat_batch_sampler.
Qed.

End DataSetupFacts.

End SetupFacts.

(** ** The video loader *)

Module VideoFacts.
Import VideoLoader VideoSpec.

Section LoaderFacts.

Context {E : Externals}.

Lemma find_last {A} (p : A -> bool) (l : list A) (x : A) :
  find p (l ++ [x])
  = match find p l with
    | Some y => Some y
    | None => if p x then Some x else None
    end.
Proof.
  induction l as [|y l IH]; simpl; [reflexivity|].
  destruct (p y); [reflexivity|exact IH].
Qed.

Lemma get_setitem (d : index) (key : string) (value : TarInfo) (key' : string) :
  get (setitem d key value) key'
  = if String.eqb key key' then Some value else get d key'.
Proof.
  induction d as [|[k v] rest IH]; simpl; [reflexivity|].
  destruct (String.eqb k key) eqn:E1; simpl.
  - apply String.eqb_eq in E1. subst k.
    destruct (String.eqb key key'); reflexivity.
  - destruct (String.eqb k key') eqn:E2.
    + apply String.eqb_eq in E2. subst k.
      rewrite String.eqb_sym, E1. reflexivity.
    + exact IH.
Qed.

Lemma get_indexed (members : list TarInfo) (d : index) (file_name : string) :
  get (fold_left (fun tar_index member =>
                    setitem tar_index (name member) member) members d)
      file_name
  = match last_member members file_name with
    | Some member => Some member
    | None => get d file_name
    end.
Proof.
  unfold last_member. revert d.
  induction members as [|m members IH]; intros d; [reflexivity|].
  cbn [fold_left rev]. rewrite IH, find_last, get_setitem.
  destruct (find _ (rev members)); [reflexivity|].
  destruct (String.eqb (name m) file_name); reflexivity.
Qed.

(** X28: a loader on a tar archive indexes the members once, at
    construction.  [open_video] then returns [None] for a name no member
    has; for any other name it decodes the last member of that name, so
    of two members with one name the later one wins, and a member that is
    not a regular file raises [AttributeError].  A loader on a folder
    never opens an archive and never returns [None]: it hands the joined
    path to [cv2.VideoCapture]. *)
Theorem open_video_reads_last_member (video_folder : string) :
  (forall members,
     endswith video_folder ".tar" = true ->
     tarfile_open video_folder = Ok members ->
     exists self,
       __init__ video_folder = Ok self /\
       forall file_name,
         open_video self file_name
         = match last_member members file_name with
           | None => Ok None
           | Some member =>
               match extractfile member with
               | None => Raise AttributeError
               | Some video_data =>
                   let? decoded := imdecode video_data in
                   Ok (option_map Image decoded)
               end
           end) /\
  (endswith video_folder ".tar" = false ->
   exists self,
     __init__ video_folder = Ok self /\
     tar_index self = [] /\
     forall file_name,
       open_video self file_name
       = Ok (Some (VideoCapture (path_join video_folder file_name)))).
Proof.
  split.
  - intros members Htar Hopen.
    unfold __init__, build_index. rewrite Htar. cbn [VideoLoader.video_folder].
    rewrite Hopen. cbn [bind].
    eexists. split; [reflexivity|].
    intros file_name. unfold open_video.
    cbn [VideoLoader.video_folder VideoLoader.tar_index].
    rewrite Htar, Hopen. cbn [bind].
    rewrite get_indexed. cbn [get].
    destruct (last_member members file_name); reflexivity.
  - intros Hfolder. unfold __init__. rewrite Hfolder.
    eexists. split; [reflexivity|]. split; [reflexivity|].
    intros file_name. unfold open_video.
    cbn [VideoLoader.video_folder]. rewrite Hfolder. reflexivity.
Qed.

End LoaderFacts.

End VideoFacts.

(** ** Runs of the further properties *)

Module MoreScenarios.
Import Model EpochEnd EpochEndSpec TranscribeSpec.

(** Lengths 2, 0, 5 and -1 under a maximum of 3. *)
Lemma mask_rows_are_prefixes_witness :
  exists mask,
    lens_to_mask [2; 0; 5; -1]%Z 3 = Ok mask /\
    forall i l, nth_error [2; 0; 5; -1]%Z i = Some l ->
      let k := Z.to_nat (Z.min (Z.max l 0) 3) in
      nth_error mask i
      = Some (List.repeat true k ++ List.repeat false (Z.to_nat 3 - k)).
Proof.
  apply (SizesMore.mask_rows_are_prefixes [2; 0; 5; -1]%Z 3). lia.
Defined.

(** A raw signal with a transcript, in training mode without an
    augmentation. *)
Lemma forward_calls_in_order_witness :
  let call :=
    forward (C := Demo.collaborators) Demo.train_frozen_encoder
      (Some [5%Z]) (Some [1%Z]) None None (Some [[1; 2]]%Z) (Some [2%Z]) in
  let plan := [Preprocessor; Encoder; Adapter; TransfDecoder; LogSoftmax] in
  (exists rest, plan = fst call ++ rest) /\
  (forall out, snd call = Ok out -> fst call = plan).
Proof.
  apply (ForwardMore.forward_calls_in_order (C := Demo.collaborators)
           Demo.train_frozen_encoder
           (Some [5%Z]) (Some [1%Z]) None None (Some [[1; 2]]%Z) (Some [2%Z])).
  reflexivity.
Defined.

Lemma forward_outputs_witness :
  (is_not_None (Some [5%Z]) = is_not_None (Some [[1; 2]]%Z)) /\
  List.length [[true]] = List.length [1%Z] /\
  exists width,
    forall i l, nth_error [1%Z] i = Some l ->
      exists row,
        nth_error [[true]] i = Some row /\
        List.length row = width /\
        forall k, (k < width)%nat ->
          nth_error row k = Some (Z.of_nat k <? l)%Z.
Proof.
  apply (ForwardMore.forward_outputs (C := Demo.collaborators)
           Demo.train_frozen_encoder
           (Some [5%Z]) (Some [1%Z]) None None (Some [[1; 2]]%Z) (Some [2%Z])
           (Some [5%Z]) [1%Z] [5%Z] [[true]]).
  reflexivity.
Defined.

(** One transcript row whose tokenizer text ends in [<pad>]. *)
Lemma validation_texts_are_stripped_witness :
  let out := {| Model.step_loss := 0%Z;
                Model.translations := ["hello world "];
                Model.ground_truths := ["hello world "] |} in
  ground_truths out
  = map (fun row => SpecialTokens._strip_special_tokens
                      (Demo.demo_ids_to_text row)) [[1; 2; 0]]%Z /\
  List.length (ground_truths out) = List.length [[1; 2; 0]]%Z /\
  Forall (fun g => SpecialTokens.has_special_token g = false)
         (ground_truths out) /\
  Forall (fun t => SpecialTokens.has_special_token t = false)
         (translations out) /\
  exists beam_hypotheses,
    translations out
    = map (fun hyp => SpecialTokens._strip_special_tokens
                        (Demo.demo_ids_to_text hyp)) beam_hypotheses.
Proof.
  apply (ValidationMore.validation_texts_are_stripped
           (C := Demo.collaborators) Demo.eval_unfrozen false
           [5%Z] [1%Z] [[1; 2; 0]]%Z [3%Z]).
  reflexivity.
Defined.

(** A transcript row of seven tokens seeds the beam search with five. *)
Lemma validation_beam_search_context_witness :
  exists enc_states enc_mask decoder_input_ids beam_hypotheses,
    beam_search (Collaborators := Demo.collaborators)
      enc_states enc_mask (Some decoder_input_ids) = Ok beam_hypotheses /\
    ["hello world "]
    = map SpecialTokens._strip_special_tokens
        (map Demo.demo_ids_to_text beam_hypotheses) /\
    decoder_input_ids
    = map (fun row => firstn (Nat.min 5 (List.length row - 1)) row)
          [[1; 2; 1; 2; 1; 2; 0]]%Z.
Proof.
  apply (ValidationMore.validation_beam_search_context
           (C := Demo.collaborators) Demo.eval_unfrozen false
           [5%Z] [1%Z] [[1; 2; 1; 2; 1; 2; 0]]%Z [7%Z]
           {| Model.step_loss := 0%Z;
              Model.translations := ["hello world "];
              Model.ground_truths := ["hello world hello world hello world "] |}).
  reflexivity.
Defined.

(** A second call, on another file, after a first one. *)
Lemma transcribe_state_settles_witness :
  let st1 := fst (transcribe (C := Demo.collaborators) (Some ["a.wav"]) 4
                    false false Demo.train_frozen_encoder) in
  fst (transcribe (C := Demo.collaborators) (Some ["b.wav"; "missing.wav"]) 1
         false true st1) = st1.
Proof.
  apply (TranscribeMore.transcribe_state_settles (C := Demo.collaborators)
           "a.wav" [] 4 false false Demo.train_frozen_encoder
           (Some ["b.wav"; "missing.wav"]) 1 false true).
  reflexivity.
Defined.

Lemma return_hypotheses_always_raises_witness :
  exists e first rest,
    batches_of ["a.wav"; "b.wav"] 4 = first :: rest /\
    snd (transcribe (C := Demo.collaborators) (Some ["a.wav"; "b.wav"]) 4
           false true Demo.eval_unfrozen) = Raise e /\
    (forall texts,
       transcribe_batch (C := Demo.collaborators)
         (inference_state Demo.eval_unfrozen) false first = Ok texts ->
       e = NameError).
Proof.
  apply (TranscribeMore.return_hypotheses_always_raises
           (C := Demo.collaborators) ["a.wav"; "b.wav"] 4 Demo.eval_unfrozen).
  - discriminate.
  - lia.
  - reflexivity.
Defined.

(** Three files in batches of two. *)
Lemma transcribe_batches_witness :
  let size := Nat.min (Z.to_nat 2) (List.length ["a.wav"; "b.wav"; "c.wav"]) in
  exists batches,
    _setup_transcribe_dataloader (C := Demo.collaborators)
      ["a.wav"; "b.wav"; "c.wav"] 2
      (manifest_of ["a.wav"; "b.wav"; "c.wav"]) = Ok (Some batches) /\
    List.concat batches = ["a.wav"; "b.wav"; "c.wav"] /\
    Forall (fun b => (1 <= List.length b <= size)%nat) batches /\
    (forall pre b post, batches = pre ++ b :: post -> post <> [] ->
       List.length b = size) /\
    ((Z.of_nat (List.length ["a.wav"; "b.wav"; "c.wav"]) <= 2)%Z ->
     batches = [["a.wav"; "b.wav"; "c.wav"]]).
Proof.
  apply (TranscribeMore.transcribe_batches (C := Demo.collaborators)
           ["a.wav"; "b.wav"; "c.wav"] 2).
  - discriminate.
  - lia.
  - reflexivity.
Defined.

Lemma transcribe_batch_size_not_positive_witness :
  transcribe (C := Demo.collaborators) (Some ["a.wav"]) 0 false false
    Demo.train_frozen_encoder
  = (state_after Demo.train_frozen_encoder, Raise ValueError).
Proof.
  apply (TranscribeMore.transcribe_batch_size_not_positive
           (C := Demo.collaborators) ["a.wav"] ["a.wav"] 0 false false
           Demo.train_frozen_encoder).
  - discriminate.
  - reflexivity.
  - lia.
  - reflexivity.
Defined.

(** With two workers that hold a pair each, worker 0 logs a result; with
    blank references only it does not. *)
Lemma epoch_end_fails_without_references_witness :
  (exists entry,
     epoch_end_pass (scorers := demo_scorers) 2 0 0 two_workers = Ok entry) /\
  ~ (exists entry,
       epoch_end_pass (scorers := demo_scorers) 1 0 0
         (fun _ => [ {| Model.step_loss := 0%Z;
                        Model.translations := ["x"];
                        Model.ground_truths := [" "] |} ])
       = Ok entry).
Proof.
  split.
  - apply (EpochEndMore.epoch_end_fails_without_references
             (scorers := demo_scorers) 2 0 two_workers).
    + lia.
    + vm_compute. discriminate.
  - intros Hentry.
    apply (EpochEndMore.epoch_end_fails_without_references
             (scorers := demo_scorers) 1 0
             (fun _ => [ {| Model.step_loss := 0%Z;
                            Model.translations := ["x"];
                            Model.ground_truths := [" "] |} ]))
      in Hentry.
    + apply Hentry. reflexivity.
    + lia.
Defined.

Lemma mean_over_workers_is_corpus_value_witness :
  let pairs := all_pairs 2 two_workers in
  exists entry : nat -> logged,
    (forall r, epoch_end_pass (scorers := demo_scorers) 2 r 0 two_workers
               = Ok (entry r)) /\
    (AveragingSpec.mean_over_workers 2 (fun r => logged_WER (entry r))
     == inject_Z (total_distance (scorers := demo_scorers) pairs)
        / inject_Z (total_words pairs))%Q /\
    (AveragingSpec.mean_over_workers 2 (fun r => logged_sacreBLEU (entry r))
     == corpus_bleu (Scorers := demo_scorers) (map fst pairs)
          [map snd pairs])%Q.
Proof.
  apply (EpochEndMore.mean_over_workers_is_corpus_value
           (scorers := demo_scorers) 2 0 two_workers).
  - lia.
  - vm_compute. discriminate.
Defined.

(** A translation that differs from its ground truth in spacing only. *)
Lemma wer_of_exact_translations_witness :
  exists entry,
    epoch_end_pass (scorers := demo_scorers) 1 0 0
      (fun _ => [ {| Model.step_loss := 0%Z;
                     Model.translations := ["hello  world"];
                     Model.ground_truths := ["hello world"] |} ])
    = Ok entry /\
    (logged_WER entry == 0)%Q.
Proof.
  apply (EpochEndMore.wer_of_exact_translations (scorers := demo_scorers) 1 0
           (fun _ => [ {| Model.step_loss := 0%Z;
                          Model.translations := ["hello  world"];
                          Model.ground_truths := ["hello world"] |} ])).
  - lia.
  - vm_compute. discriminate.
  - intros ws. cbn [editdistance_eval demo_scorers].
    rewrite EpochEndMore.levenshtein_refl. reflexivity.
  - vm_compute. repeat constructor.
Defined.

(** The outputs of the two workers exchanged. *)
Lemma wer_independent_of_sharding_witness :
  exists entry entry',
    epoch_end_pass (scorers := demo_scorers) 2 0 0 two_workers = Ok entry /\
    epoch_end_pass (scorers := demo_scorers) 2 0 0
      (fun r => two_workers (1 - r)) = Ok entry' /\
    logged_WER entry = logged_WER entry'.
Proof.
  apply (EpochEndMore.wer_independent_of_sharding (scorers := demo_scorers)
           2 0 two_workers (fun r => two_workers (1 - r))).
  - lia.
  - vm_compute. discriminate.
  - vm_compute. apply perm_swap.
Defined.

Lemma epoch_end_on_other_workers_witness :
  multi_validation_epoch_end (scorers := demo_scorers) 2 1
    (fun r => FlatOutputs (two_workers r))
  = Ok [{| logged_loss := 0%Z; logged_sacreBLEU := 0%Q; logged_WER := 0%Q |}].
Proof.
  apply (EpochEndMore.epoch_end_on_other_workers (scorers := demo_scorers)
           2 1 (fun r => FlatOutputs (two_workers r))).
  - lia.
  - discriminate.
Defined.

(** *** Configurations *)


Lemma training_limit_kept_witness :
  Setup.setup_training_data
    (F := SetupSpec.demo_factories SetupSpec.demo_files) 2
    (Some (Setup.LimitInt 10)) SetupSpec.demo_config
  = Setup.Done (SetupSpec.demo_loader, Some (Setup.LimitInt 10)).
Proof.
  apply (SetupFacts.training_limit_kept
           (F := SetupSpec.demo_factories SetupSpec.demo_files) 2
           SetupSpec.demo_config SetupSpec.demo_loader).
  reflexivity.
Defined.


(** Five files and batch size 2 on a machine with four processors. *)
Lemma transcribe_loader_batches_witness :
  exists a,
    Setup._setup_transcribe_dataloader
      (F := SetupSpec.demo_factories SetupSpec.demo_files)
      SetupSpec.demo_files 2 "tmp/manifest.json" 16000 4
    = Setup.Done (Setup.Torch a) /\
    Setup.dl_shuffle a = Setup.VBool false /\
    Setup.dl_drop_last a = Setup.VBool false /\
    Setup.dl_pin_memory a = Setup.VBool true /\
    Setup.dl_batch_size a
    = Setup.VInt (Z.min 2 (Z.of_nat (List.length SetupSpec.demo_files))) /\
    (exists workers,
       Setup.dl_num_workers a = Setup.VInt workers /\
       (workers <= 2)%Z /\
       (workers <= Z.of_nat (List.length SetupSpec.demo_files))%Z /\
       (workers <= 4 - 1)%Z) /\
    SetupSpec.sequential_batches a
    = Some (batches_of SetupSpec.demo_files 2) /\
    List.concat (batches_of SetupSpec.demo_files 2) = SetupSpec.demo_files.
Proof.
  apply (SetupFacts.transcribe_loader_batches
           (F := SetupSpec.demo_factories SetupSpec.demo_files)
           SetupSpec.demo_files 2 "tmp/manifest.json" 16000 4
           {| Setup.items := SetupSpec.demo_files;
              Setup.has_collate_fn := true |}).
  - discriminate.
  - lia.
  - reflexivity.
  - reflexivity.
Defined.

(** *** Further runs *)

Example open_video_runs :
  let self := {| VideoLoader.video_folder := "videos.tar";
                 VideoLoader.tar_index :=
                   [ ("a.mp4", {| VideoLoader.name := "a.mp4";
                                  VideoLoader.extractfile :=
                                    Some [Byte.x02; Byte.x03] |});
                     ("clips", {| VideoLoader.name := "clips";
                                  VideoLoader.extractfile := None |}) ] |} in
  VideoLoader.__init__ (E := VideoSpec.demo_externals) "videos.tar" = Ok self /\
  VideoLoader.open_video (E := VideoSpec.demo_externals) self "a.mp4"
  = Ok (Some (VideoLoader.Image (E := VideoSpec.demo_externals)
                [Byte.x02; Byte.x03])) /\
  VideoLoader.open_video (E := VideoSpec.demo_externals) self "b.mp4"
  = Ok None /\
  VideoLoader.open_video (E := VideoSpec.demo_externals) self "clips"
  = Raise AttributeError.
Proof. repeat split. Qed.

Example validation_fills_in_shuffle :
  Setup.setup_validation_data
    (F := SetupSpec.demo_factories SetupSpec.demo_files)
    [("manifest_filepath", Setup.VStr "val.json"); ("batch_size", Setup.VInt 4)]
  = ([("manifest_filepath", Setup.VStr "val.json");
      ("batch_size", Setup.VInt 4);
      ("shuffle", Setup.VBool false)],
     Setup.Done
       (Setup.Torch
          {| Setup.dl_dataset := {| Setup.items := SetupSpec.demo_files;
                                    Setup.has_collate_fn := true |};
             Setup.dl_batch_size := Setup.VInt 4;
             Setup.dl_collate_fn := Setup.OfDataset;
             Setup.dl_drop_last := Setup.VBool false;
             Setup.dl_shuffle := Setup.VBool false;
             Setup.dl_num_workers := Setup.VInt 0;
             Setup.dl_pin_memory := Setup.VBool false |})).
Proof. reflexivity. Qed.

(** The limit is scaled as doubles are: with ten batches a limit of 0.7
    becomes 7, with a hundred a limit of 0.29 becomes 28, and a limit of
    1.0 becomes the number of batches. *)
Example training_limit_rounds_as_doubles :
  let config :=
    [ ("manifest_filepath", Setup.VStr "train.json");
      ("is_tarred", Setup.VBool true);
      ("shuffle", Setup.VBool false);
      ("batch_size", Setup.VInt 2) ] in
  let limit_after files world_size limit :=
    match Setup.setup_training_data (F := SetupSpec.demo_factories files)
            world_size (Some (Setup.LimitFloat limit)) config with
    | Setup.Done (_, trainer) => trainer
    | Setup.Fail _ => None
    end in
  (limit_after (List.repeat "a.wav" 20) 1%Z SetupSpec.seven_tenths
   = Some (Setup.LimitInt 7)) /\
  (limit_after (List.repeat "a.wav" 200) 1%Z SetupSpec.twenty_nine_hundredths
   = Some (Setup.LimitInt 28)) /\
  (limit_after (List.repeat "a.wav" 21) 2%Z SetupSpec.one
   = Some (Setup.LimitInt 6)).
Proof. repeat split. Qed.

Example decoder_arguments_run :
  Setup.decoder_arguments
    [("library", Setup.VStr "huggingface"); ("vocab_size", Setup.VInt 5);
     ("hidden_size", Setup.VInt 512)] 32001
  = {| Setup.library := Setup.VStr "huggingface";
       Setup.model_name := Setup.VNone;
       Setup.pretrained := Setup.VBool false;
       Setup.config_dict :=
         [("vocab_size", Setup.VInt 32008); ("hidden_size", Setup.VInt 512)];
       Setup.encoder := false;
       Setup.pre_ln_final_layer_norm := Setup.VBool false |}.
Proof. reflexivity. Qed.

End MoreScenarios.
